(** * processSST.py: the grid parser and the colour mapper

    A shallow embedding of [processSST.py], the script that reads a Met Office
    Hadley Centre sea-surface-temperature file into a dictionary of monthly
    180x360 int16 arrays and renders every month as a raw TIFF and as a
    palettised PNG.

    Conventions of the embedding.
    - Text is a list of characters; a character is a code point below 256.
      The input of the parser is the decoded text of the file, as the
      text-mode file object hands it to [readline] (line ends are ["\n"]).
    - Python exceptions are values of [pyerror]; a computation that may raise
      returns a [result].  An exception is never caught by the script, so a
      raised error ends the run.
    - numpy's int16 stores are written with their wrap-around, and float64
      arithmetic is the kernel's binary64 arithmetic ([PrimFloat]).  The script
      uses [np.float], so the numpy it runs on is one where storing an
      out-of-range Python integer in an int16 array wraps silently.
    - The image codecs ([tifffile.imsave], [PIL.Image.save]) are external: a
      written file is recorded by its name and by the array handed over.
      Whether a file of a given name can be opened for writing is the file
      system's answer, a parameter of the run, the same for a name throughout
      the run (the script makes no directory and removes no file): a write
      whose file cannot be opened raises, leaves no file and ends the run, and
      the files written before it stay. *)

From Stdlib Require Import Ascii String.
From Stdlib Require Import List ZArith NArith Lia Bool PeanoNat.
From Stdlib Require Import Uint63 PrimFloat FloatOps SpecFloat.
Import ListNotations.

Local Open Scope nat_scope.

(** ** Text *)

Definition text := list ascii.

(** A string literal as text. *)
Definition txt (s : string) : text := list_ascii_of_string s.

Fixpoint text_eqb (a b : text) : bool :=
  match a, b with
  | [], [] => true
  | x :: a', y :: b' => Ascii.eqb x y && text_eqb a' b'
  | _, _ => false
  end.

Definition code (c : ascii) : N := N_of_ascii c.

(** [str.isspace] on code points below 256: the characters [str.split()]
    splits on. *)
Definition is_space (c : ascii) : bool :=
  let n := code c in
  ((9 <=? n) && (n <=? 13) || (28 <=? n) && (n <=? 32) || (n =? 133) || (n =? 160))%N.

(** The characters [int()] drops around a literal: the white space of C's
    [isspace] and the white space above code 127; the separators 28..31 are
    not among them. *)
Definition is_int_space (c : ascii) : bool :=
  let n := code c in
  ((9 <=? n) && (n <=? 13) || (n =? 32) || (n =? 133) || (n =? 160))%N.

Definition is_newline (c : ascii) : bool := (code c =? 10)%N.

(** [s[a:b]] for [0 <= a <= b]: a slice never raises, it is cut at the end
    of [s]. *)
Definition py_slice (s : text) (a b : nat) : text := firstn (b - a) (skipn a s).

(** [str.split()] with no argument: the maximal runs of non-space characters.
    [cur] is the token being read, reversed. *)
Fixpoint split_ws (cur : text) (s : text) : list text :=
  match s with
  | [] => match cur with [] => [] | _ => [rev cur] end
  | c :: s' =>
      if is_space c
      then match cur with [] => split_ws [] s' | _ => rev cur :: split_ws [] s' end
      else split_ws (c :: cur) s'
  end.

Definition py_split (s : text) : list text := split_ws [] s.

Fixpoint lstrip (s : text) : text :=
  match s with
  | c :: s' => if is_int_space c then lstrip s' else s
  | [] => []
  end.

Definition py_strip (s : text) : text := rev (lstrip (rev (lstrip s))).

Definition digit_val (c : ascii) : option Z :=
  let n := code c in
  if ((48 <=? n) && (n <=? 57))%N then Some (Z.of_N (n - 48)) else None.

(** The digits of a decimal literal: one or more digits, single underscores
    allowed between two digits.  [prev] says that the character before was a
    digit. *)
Fixpoint digits_val (acc : Z) (prev : bool) (s : text) : option Z :=
  match s with
  | [] => if prev then Some acc else None
  | c :: s' =>
      if (code c =? 95)%N
      then (if prev then digits_val acc false s' else None)
      else match digit_val c with
           | Some d => digits_val (10 * acc + d)%Z true s'
           | None => None
           end
  end.

(** [int(s)] in base 10: surrounding white space is dropped, one sign is
    allowed; [None] stands for [ValueError]. *)
Definition py_int (s : text) : option Z :=
  match py_strip s with
  | c :: ds =>
      if (code c =? 45)%N then option_map Z.opp (digits_val 0 false ds)
      else if (code c =? 43)%N then digits_val 0 false ds
      else digits_val 0 false (c :: ds)
  | [] => None
  end.

(** ** Exceptions *)

Inductive pyerror : Type :=
| NameError    (* a variable read before it was bound *)
| ValueError   (* too few values to unpack, or an invalid literal for int() *)
| IndexError   (* a numpy index out of bounds *)
| KeyError     (* a dictionary key that is absent *)
| OSError.     (* a file that cannot be opened for writing *)

Inductive result (A : Type) : Type :=
| Ok (a : A)
| Raise (e : pyerror).
Arguments Ok {A} a.
Arguments Raise {A} e.

Definition bind {A B} (m : result A) (k : A -> result B) : result B :=
  match m with
  | Ok a => k a
  | Raise e => Raise e
  end.

Notation "x <- m ;; k" := (bind m (fun x => k))
  (at level 61, m at next level, right associativity).

Definition is_ok {A} (m : result A) : bool :=
  match m with Ok _ => true | Raise _ => false end.

Definition or_raise {A} (o : option A) (e : pyerror) : result A :=
  match o with
  | Some a => Ok a
  | None => Raise e
  end.

(** [for x in xs: s = body(s, x)], stopping at the first exception. *)
Fixpoint for_each {S X} (body : S -> X -> result S) (xs : list X) (s : S) : result S :=
  match xs with
  | [] => Ok s
  | x :: xs' => s' <- body s x ;; for_each body xs' s'
  end.

(** ** Arrays and dictionaries *)

(** A 2-D numpy array, row by row. *)
Definition grid := list (list Z).

Definition ROWS : nat := 180.
Definition COLS : nat := 360.

(** The value an int16 array holds after a Python integer is stored in it. *)
Definition wrap16 (z : Z) : Z := ((z + 32768) mod 65536 - 32768)%Z.

Definition in_int16 (z : Z) : bool := ((-32768 <=? z) && (z <=? 32767))%Z.

(** [np.zeros((180,360), dtype=np.int16)] *)
Definition zero_row : list Z := repeat 0%Z COLS.
Definition zeros : grid := repeat zero_row ROWS.

(** [l[i] = x]; [None] when [i] is out of range. *)
Fixpoint list_set {A} (l : list A) (i : nat) (x : A) : option (list A) :=
  match l, i with
  | [], _ => None
  | _ :: t, 0 => Some (x :: t)
  | h :: t, S i' => option_map (cons h) (list_set t i' x)
  end.

(** [na[r,c] = v] for [v] already of the array's type; [None] stands for
    [IndexError]. *)
Definition grid_set (na : grid) (r c : nat) (v : Z) : option grid :=
  match nth_error na r with
  | None => None
  | Some row =>
      match list_set row c v with
      | None => None
      | Some row' => list_set na r row'
      end
  end.

(** [na[r,c]] *)
Definition cell {A} (na : list (list A)) (r c : nat) : option A :=
  match nth_error na r with
  | None => None
  | Some row => nth_error row c
  end.

(** A Python dictionary with text keys: the items in insertion order. *)
Definition dict (V : Type) := list (text * V).

Fixpoint dict_get {V} (d : dict V) (k : text) : option V :=
  match d with
  | [] => None
  | (k', v) :: d' => if text_eqb k' k then Some v else dict_get d' k
  end.

(** [d[k] = v]: a key already present keeps its place and takes the new
    value, a new key goes last. *)
Fixpoint dict_set {V} (d : dict V) (k : text) (v : V) : dict V :=
  match d with
  | [] => [(k, v)]
  | (k', v') :: d' => if text_eqb k' k then (k', v) :: d' else (k', v') :: dict_set d' k v
  end.

(** ** The grid parser *)

(** The variables of the script that the reading loop binds.  [None] is a
    name that is not bound yet.  Each array is reachable through one key of
    [months] only, so an array is kept by value under its key. *)
Record pstate : Type := mk_pstate {
  months : dict grid;
  var_D : option text;
  var_M : option text;
  var_Y : option text;
  var_r : option nat
}.

Definition init_state : pstate := mk_pstate [] None None None None.

Definition set_months (st : pstate) (d : dict grid) : pstate :=
  mk_pstate d (var_D st) (var_M st) (var_Y st) (var_r st).

(** [months[M][r,c] = int(line[6*c:6*c+6])]: the right-hand side is evaluated
    first, then [months[M]], then the index [r,c], then the store. *)
Definition store_field (line : text) (st : pstate) (c : nat) : result pstate :=
  v <- or_raise (py_int (py_slice line (6 * c) (6 * c + 6))) ValueError ;;
  M <- or_raise (var_M st) NameError ;;
  na <- or_raise (dict_get (months st) M) KeyError ;;
  r <- or_raise (var_r st) NameError ;;
  na' <- or_raise (grid_set na r c (wrap16 v)) IndexError ;;
  Ok (set_months st (dict_set (months st) M na')).

(** One turn of the reading loop on a line that is not empty. *)
Definition process_line (st : pstate) (line : text) : result pstate :=
  if length line <? 50 then
    match py_split line with
    | D :: M :: Y :: _ =>
        Ok (mk_pstate (dict_set (months st) M zeros) (Some D) (Some M) (Some Y) (Some 0))
    | _ => Raise ValueError
    end
  else
    st' <- for_each (store_field line) (seq 0 COLS) st ;;
    r <- or_raise (var_r st') NameError ;;
    Ok (mk_pstate (months st') (var_D st') (var_M st') (var_Y st') (Some (r + 1))).

(** [f.readline()]: the next line with its line end, and what is left of the
    file; the empty text at the end of the file. *)
Fixpoint readline (f : text) : text * text :=
  match f with
  | [] => ([], [])
  | c :: f' =>
      if is_newline c then ([c], f')
      else let (l, rest) := readline f' in (c :: l, rest)
  end.

(** The [while True] loop.  [None] is a loop that has not ended within
    [fuel] turns. *)
Fixpoint read_loop (fuel : nat) (f : text) (st : pstate) : option (result pstate) :=
  match fuel with
  | 0 => None
  | S fuel' =>
      let (line, rest) := readline f in
      if length line <? 1 then Some (Ok st)
      else match process_line st line with
           | Raise e => Some (Raise e)
           | Ok st' => read_loop fuel' rest st'
           end
  end.

(** The parser on the text of a file: every turn of the loop reads at least
    one character, so one turn more than the file has characters is enough. *)
Definition parse (content : text) : option (result pstate) :=
  read_loop (S (length content)) content init_state.

(** [f.readlines()]: the lines the loop reads, in order. *)
Fixpoint lines_of (f : text) : list text :=
  match f with
  | [] => []
  | c :: f' =>
      if is_newline c then [c] :: lines_of f'
      else match lines_of f' with
           | [] => [[c]]
           | l :: ls => (c :: l) :: ls
           end
  end.

(** A line as [readline] returns it before the end of the file: not empty,
    with a line end as its last character and nowhere else. *)
Fixpoint complete_line (l : text) : bool :=
  match l with
  | [] => false
  | c :: l' =>
      match l' with
      | [] => is_newline c
      | _ :: _ => negb (is_newline c) && complete_line l'
      end
  end.

(** The loop body over a list of lines. *)
Definition run_lines (st : pstate) (lines : list text) : result pstate :=
  for_each process_line lines st.

(** ** The colour mapper *)

(** [astype(np.float)] on an int16 value: exact. *)
Definition float_of_int (z : Z) : float :=
  if (z <? 0)%Z then (- of_uint63 (Uint63.of_Z (- z)))%float
  else of_uint63 (Uint63.of_Z z).

(** The integer part of a finite float (rounding toward zero); 0 for a NaN
    or an infinity, which no int16 input produces. *)
Definition float_trunc (x : float) : Z :=
  match Prim2SF x with
  | S754_finite s m e =>
      let a := (if e <? 0 then Z.shiftr (Zpos m) (- e) else Z.shiftl (Zpos m) e)%Z in
      if s then (- a)%Z else a
  | _ => 0%Z
  end.

(** [astype(np.uint8)] on a float *)
Definition to_uint8 (x : float) : Z := (float_trunc x mod 256)%Z.

Definition np_maximum (a b : float) : float :=
  if (b <=? a)%float || is_nan a then a else b.

Definition np_minimum (a b : float) : float :=
  if (a <=? b)%float || is_nan a then a else b.

(** [np.clip(x, lo, hi)] *)
Definition np_clip (x lo hi : float) : float := np_minimum (np_maximum x lo) hi.

(** An operation applied to every element of a 2-D array. *)
Definition amap {A B} (f : A -> B) (a : list (list A)) : list (list B) :=
  map (map f) a.

Fixpoint zip_with {A B C} (f : A -> B -> C) (xs : list A) (ys : list B) : list C :=
  match xs, ys with
  | x :: xs', y :: ys' => f x y :: zip_with f xs' ys'
  | _, _ => []
  end.

(** [copy[na == s] = v] for two arrays of one shape *)
Definition mask_assign (copy : list (list Z)) (na : grid) (s v : Z) : list (list Z) :=
  zip_with (zip_with (fun x n => if (n =? s)%Z then v else x)) copy na.

(** The palettised copy of a grid, statement by statement. *)
Definition colour_map (na : grid) : list (list Z) :=
  let copy := amap (fun x => float_of_int x / 100)%float na in
  let copy := amap (fun x => x + 5)%float copy in
  let copy := amap (fun x => x * (253 / 35))%float copy in
  let copy := amap (fun x => x + 2)%float copy in
  let copy := amap (fun x => to_uint8 (np_clip x 2 255)) copy in
  let copy := mask_assign copy na (-32768) 0 in
  let copy := mask_assign copy na (-1000) 1 in
  copy.

(** [range(a, b)] *)
Definition py_range (a b : nat) : list Z := map Z.of_nat (seq a (b - a)).

(** The palette: a flat list of red, green, blue values. *)
Definition palette : list Z :=
  fold_left (fun palette e => ((palette ++ [e]) ++ [0%Z]) ++ [(255 - e)%Z])
            (py_range 2 256) [0; 0; 0; 255; 255; 255]%Z.

(** Entry [e] of the palette as an RGB triple. *)
Definition palette_entry (e : nat) : option (Z * Z * Z) :=
  match nth_error palette (3 * e), nth_error palette (3 * e + 1), nth_error palette (3 * e + 2) with
  | Some r, Some g, Some b => Some (r, g, b)
  | _, _, _ => None
  end.

(** ** Rendering *)

(** What is handed to a codec. *)
Inductive image : Type :=
| Tiff (pixels : grid)
| Png (pixels : list (list Z)) (colours : list Z).

(** The month as it appears in a file name. *)
Definition pad_month (month : text) : text :=
  if length month <? 2 then txt "0" ++ month else month.

(** The file system as the script meets it when it writes: for a file
    name, [None] when a file of that name can be written, or the exception
    the write raises (a directory that does not exist, a character that no
    file name may hold). *)
Definition filesystem : Type := text -> option pyerror.

(** What a run has done: the files it has written, in order, and how it
    ended. *)
Definition outcome : Type := (list (text * image) * result unit)%type.

(** [imsave(name, ...)] and [im.save(name)]: the file is written, or the
    write raises and leaves the files as they were. *)
Definition write (fs : filesystem) (log : list (text * image))
           (name : text) (img : image) : outcome :=
  match fs name with
  | None => (log ++ [(name, img)], Ok tt)
  | Some e => (log, Raise e)
  end.

(** One turn of the loop over [months.items()]; [log] is the list of files
    written so far, in order. *)
Definition render_month (fs : filesystem) (Y : option text)
           (log : list (text * image)) (item : text * grid) : outcome :=
  let (month, na) := item in
  let month := pad_month month in
  match Y with
  | None => (log, Raise NameError)
  | Some y =>
      let DMY := txt "01-" ++ month ++ txt "-" ++ y in
      let rawname := DMY ++ txt "-raw.tif" in
      let rgbname := DMY ++ txt "-RGB.png" in
      match write fs log rawname (Tiff na) with
      | (log', Raise e) => (log', Raise e)
      | (log', Ok _) => write fs log' rgbname (Png (colour_map na) palette)
      end
  end.

(** The loop over [months.items()], stopped by the first exception. *)
Fixpoint render_loop (fs : filesystem) (Y : option text)
         (items : dict grid) (log : list (text * image)) : outcome :=
  match items with
  | [] => (log, Ok tt)
  | item :: items' =>
      match render_month fs Y log item with
      | (log', Raise e) => (log', Raise e)
      | (log', Ok _) => render_loop fs Y items' log'
      end
  end.

(** The whole script on the text of its input file, in a file system [fs]:
    the files written, in order, and the end of the run.  An exception of
    the reading loop ends the run before anything is written. *)
Definition main (fs : filesystem) (content : text) : option outcome :=
  match parse content with
  | None => None
  | Some (Raise e) => Some ([], Raise e)
  | Some (Ok st) => Some (render_loop fs (var_Y st) (months st) [])
  end.

(** A directory in which every name can be written. *)
Definition accept_all : filesystem := fun _ => None.

(** The directory after the writes of [log]: a file written twice holds what
    was written last. *)
Definition final_files (log : list (text * image)) : dict image :=
  fold_left (fun fs w => dict_set fs (fst w) (snd w)) log [].

(** ** The per-cell rule of the specification *)

(** The gradient rule as the specification words it: degrees, shift by 5,
    rescale by 253/35, offset by 2, clamp to [2, 255], truncate. *)
Definition spec_gradient_index (raw : Z) : Z :=
  let deg := (float_of_int raw / 100)%float in
  let deg' := (deg + 5)%float in
  let idx := (deg' * (253 / 35) + 2)%float in
  float_trunc (np_clip idx 2 255).

(** The index of a cell as the specification words it: land, else ice, else
    the gradient. *)
Definition spec_palette_index (raw : Z) : Z :=
  if (raw =? -32768)%Z then 0%Z
  else if (raw =? -1000)%Z then 1%Z
  else spec_gradient_index raw.

(** ** Checking a property on every int16 value *)

(** [P] on the [n] integers from [lo] upward. *)
Fixpoint all_from (n : nat) (lo : Z) (P : Z -> bool) : bool :=
  match n with
  | 0 => true
  | S k => P lo && all_from k (lo + 1)%Z P
  end.

Definition all_int16 (P : Z -> bool) : bool :=
  all_from (Z.to_nat 65536) (-32768)%Z P.

(** What the statements of [colour_map] do to one cell, in their order. *)
Definition cell_steps (raw : Z) : Z :=
  let x := (float_of_int raw / 100)%float in
  let x := (x + 5)%float in
  let x := (x * (253 / 35))%float in
  let x := (x + 2)%float in
  let i := to_uint8 (np_clip x 2 255) in
  let i := if (raw =? -32768)%Z then 0%Z else i in
  let i := if (raw =? -1000)%Z then 1%Z else i in
  i.

(** ** The input format *)

(** Field [c] of a line: what [int] makes of characters [6c, 6c+6). *)
Definition field (line : text) (c : nat) : option Z :=
  py_int (py_slice line (6 * c) (6 * c + 6)).

Definition field_value (line : text) (c : nat) : Z :=
  match field line c with
  | Some v => v
  | None => 0%Z
  end.

Definition is_some {A} (o : option A) : bool :=
  match o with Some _ => true | None => false end.

(** A line that the loop takes for a data line and whose 360 fields are all
    integer literals. *)
Definition data_ok (line : text) : bool :=
  negb (length line <? 50) && forallb (fun c => is_some (field line c)) (seq 0 COLS).

(** The row of an int16 array that a data line fills. *)
Definition row_of (line : text) : list Z :=
  map (fun c => wrap16 (field_value line c)) (seq 0 COLS).

(** The array of a period once the data lines [rows] have been stored: a
    row for each line, the rows below still zero. *)
Definition block_grid (rows : list text) : grid :=
  map row_of rows ++ skipn (length rows) zeros.

(** ** Sample inputs *)

Definition nl : text := ["010"%char].

(** A header line for day 1 of month [M] of year [Y]. *)
Definition header_line (M Y : string) : text :=
  txt "1 " ++ txt M ++ txt " " ++ txt Y ++ nl.

(** A data line of 360 fields: [first], then 359 times [others]. *)
Definition data_line (first others : string) : text :=
  txt first ++ concat (repeat (txt others) 359) ++ nl.

(** A full block of 180 data lines, all alike but for the first field of
    the first line. *)
Definition data_block (first others : string) : list text :=
  data_line first others :: repeat (data_line others others) 179.

(** A file of one period. *)
Definition one_period_file (first : string) : text :=
  concat (header_line "01" "1870" :: data_block first "   271").

(** A data line that stops one character into its last field: 359 fields,
    the digit 7, the line end. *)
Definition short_line : text :=
  concat (repeat (txt "   271") 359) ++ txt "7" ++ nl.

Definition short_file : text := header_line "01" "1870" ++ short_line.

(** A line of 60 digits: long enough for a data line, far too short for 360
    fields. *)
Definition stub_line : text := repeat "0"%char 60.

Definition stub_file : text := header_line "01" "1870" ++ stub_line ++ nl.

(** A file that starts with a data line. *)
Definition headless_file : text :=
  data_line "   271" "   271" ++ header_line "01" "1870".

(** A file of two periods with a full block each. *)
Definition two_period_file (M1 M2 : string) : text :=
  concat (header_line M1 "1870" :: data_block "  1234" "   271")
  ++ concat (header_line M2 "1870" :: data_block "  1234" "   271").

(** Two headers of different years and no data line. *)
Definition two_year_file : text := header_line "01" "1870" ++ header_line "02" "1871".

(** Two periods whose month tokens are 1 and 01, one data line each. *)
Definition padded_file : text :=
  header_line "1" "1870" ++ data_line "  1234" "   271"
  ++ header_line "01" "1870" ++ data_line "   -55" "   271".

(** ** Reading a period off its data lines *)

(** [na] is a 180x360 array whose cell [r][c] holds, as an int16, the
    integer of field [c] of data line [r]. *)
Definition populated_from (na : grid) (rows : list text) : Prop :=
  length na = 180 /\ Forall (fun row => length row = 360) na /\
  forall r c line v,
    nth_error rows r = Some line -> c < 360 -> field line c = Some v ->
    cell na r c = Some (wrap16 v).

(** Every cell of every array of the mapping is an int16 value. *)
Definition cells_int16 (st : pstate) : Prop :=
  forall M na r c raw,
    In (M, na) (months st) -> cell na r c = Some raw -> in_int16 raw = true.

(** Closed goals are settled by evaluation. *)
Ltac by_evaluation := vm_compute; reflexivity.

(** ** Files of any number of periods *)

(** A period as it stands in a file: its header line and the data lines
    that follow it. *)
Definition period : Type := (text * list text)%type.

Definition period_lines (p : period) : list text := fst p :: snd p.

(** Token [i] of a header line. *)
Definition header_token (h : text) (i : nat) : text := nth i (py_split h) [].

(** A line that the loop takes for a header and that has the three tokens
    the unpacking needs. *)
Definition header_ok (h : text) : bool :=
  (length h <? 50) && (3 <=? length (py_split h)).

(** A header line followed by at most 180 data lines of 360 integer fields. *)
Definition period_ok (p : period) : bool :=
  header_ok (fst p) && (length (snd p) <=? ROWS) && forallb data_ok (snd p).

(** The variables of the script once the lines of a period have been read. *)
Definition after_period (st : pstate) (p : period) : pstate :=
  mk_pstate (dict_set (months st) (header_token (fst p) 1) (block_grid (snd p)))
            (Some (header_token (fst p) 0))
            (Some (header_token (fst p) 1))
            (Some (header_token (fst p) 2))
            (Some (length (snd p))).

(** The entry of the mapping that a period makes. *)
Definition period_entry (p : period) : text * grid :=
  (header_token (fst p) 1, block_grid (snd p)).

(** The keys of a dictionary, in its order. *)
Definition keys {V} (d : dict V) : list text := map fst d.

(** The two files the rendering loop writes for one entry of the mapping
    when [Y] is bound to [y]. *)
Definition period_files (y : text) (item : text * grid) : list (text * image) :=
  [((txt "01-" ++ pad_month (fst item) ++ txt "-" ++ y) ++ txt "-raw.tif",
    Tiff (snd item));
   ((txt "01-" ++ pad_month (fst item) ++ txt "-" ++ y) ++ txt "-RGB.png",
    Png (colour_map (snd item)) palette)].

(** Files written one after the other until a write raises. *)
Fixpoint write_files (fs : filesystem) (files log : list (text * image)) : outcome :=
  match files with
  | [] => (log, Ok tt)
  | (name, img) :: files' =>
      match fs name with
      | None => write_files fs files' (log ++ [(name, img)])
      | Some e => (log, Raise e)
      end
  end.

(** Every write of [files] is taken by the file system. *)
Definition accepted (fs : filesystem) (files : list (text * image)) : Prop :=
  Forall (fun f => fs (fst f) = None) files.

(** Every array of the mapping has 180 rows of 360 cells. *)
Definition grids_shaped (st : pstate) : Prop :=
  forall M na, In (M, na) (months st) ->
               length na = 180 /\ Forall (fun row => length row = 360) na.

(** ** More sample inputs *)

(** Three periods: month 01, month 02 without data, month 01 again. *)
Definition three_periods : list period :=
  [(header_line "01" "1870", [data_line "  1234" "   271"]);
   (header_line "02" "1870", []);
   (header_line "01" "1871", [data_line "   -55" "   271"; data_line "    66" "   271"])].

Definition three_period_file : text := concat (flat_map period_lines three_periods).

(** A period followed by an empty line. *)
Definition blank_line_file : text :=
  header_line "01" "1870" ++ data_line "   271" "   271" ++ nl.

(** A header followed by 181 data lines. *)
Definition overlong_file : text :=
  concat (header_line "01" "1870" :: repeat (data_line "   271" "   271") 181).

(** A data line whose first field is no integer. *)
Definition bad_field_file : text :=
  header_line "01" "1870" ++ data_line "  12a " "   271".

(** The variables of the script when [two_year_file] has been read. *)
Definition two_year_state : pstate :=
  mk_pstate [(txt "01", zeros); (txt "02", zeros)]
            (Some (txt "1")) (Some (txt "02")) (Some (txt "1871")) (Some 0).

(** A header whose month token holds a slash. *)
Definition slash_file : text := header_line "a/b" "1870".

(** The variables of the script when [slash_file] has been read. *)
Definition slash_state : pstate :=
  mk_pstate [(txt "a/b", zeros)]
            (Some (txt "1")) (Some (txt "a/b")) (Some (txt "1870")) (Some 0).

(** A directory without subdirectories: a name with a slash cannot be
    opened, every other name can. *)
Definition flat_directory : filesystem :=
  fun name => if existsb (fun c => (code c =? 47)%N) name then Some OSError else None.

(** * Properties *)

(** ** Loops that may raise *)

Section ForEach.
Context {S X : Type} (body : S -> X -> result S).

Lemma for_each_app (xs ys : list X) (s : S) :
  for_each body (xs ++ ys) s = (s' <- for_each body xs s ;; for_each body ys s').
Proof.
  revert s; induction xs as [|x xs IH]; intros s; simpl; [reflexivity|].
  destruct (body s x); simpl; auto.
Qed.

(** A turn that raises from every state makes the loop raise. *)
Lemma for_each_raises (xs : list X) (x : X) (s : S) :
  In x xs -> (forall s', is_ok (body s' x) = false) ->
  is_ok (for_each body xs s) = false.
Proof.
  revert s; induction xs as [|a xs IH]; intros s Hin Hx; [destruct Hin|].
  simpl. destruct Hin as [->|Hin].
  - specialize (Hx s). destruct (body s x); [discriminate|reflexivity].
  - destruct (body s a); simpl; [apply IH; assumption|reflexivity].
Qed.
End ForEach.

(** ** Text and dictionaries *)

Lemma text_eqb_refl (a : text) : text_eqb a a = true.
Proof.
  induction a as [|x a IH]; simpl; [reflexivity|].
  now rewrite Ascii.eqb_refl, IH.
Qed.

Lemma text_eqb_eq (a b : text) : text_eqb a b = true <-> a = b.
Proof.
  split; [|intros ->; apply text_eqb_refl].
  revert b; induction a as [|x a IH]; intros [|y b]; simpl; try discriminate; auto.
  intros H. apply andb_prop in H as [Hx Hab].
  apply Ascii.eqb_eq in Hx. apply IH in Hab. now subst.
Qed.

Lemma text_eqb_neq (a b : text) : a <> b -> text_eqb a b = false.
Proof.
  intros H. destruct (text_eqb a b) eqn:E; [|reflexivity].
  apply text_eqb_eq in E. contradiction.
Qed.

Section Dict.
Context {V : Type}.
Implicit Types (d : dict V) (k : text) (v : V).

Lemma dict_get_set_same d k v : dict_get (dict_set d k v) k = Some v.
Proof.
  induction d as [|[k' v'] d IH]; simpl.
  - now rewrite text_eqb_refl.
  - destruct (text_eqb k' k) eqn:E; simpl; rewrite E; auto.
Qed.

Lemma dict_set_set d k v v' : dict_set (dict_set d k v) k v' = dict_set d k v'.
Proof.
  induction d as [|[k' w] d IH]; simpl.
  - now rewrite text_eqb_refl.
  - destruct (text_eqb k' k) eqn:E; simpl; rewrite E; [reflexivity|now rewrite IH].
Qed.

Lemma dict_set_get_id d k v : dict_get d k = Some v -> dict_set d k v = d.
Proof.
  induction d as [|[k' w] d IH]; simpl; [discriminate|].
  destruct (text_eqb k' k) eqn:E.
  - now intros [= ->].
  - intros H. now rewrite IH.
Qed.
End Dict.

(** ** Reading lines *)

Lemma readline_lines (f : text) :
  f <> [] ->
  fst (readline f) <> [] /\
  lines_of f = fst (readline f) :: lines_of (snd (readline f)) /\
  length (snd (readline f)) < length f.
Proof.
  induction f as [|c f IH]; [congruence|]. intros _. simpl.
  destruct (is_newline c).
  - simpl. repeat split; [discriminate|lia].
  - destruct f as [|c' f].
    + simpl. repeat split; [discriminate|lia].
    + destruct IH as (Hne & Hl & Hlen); [discriminate|].
      destruct (readline (c' :: f)) as [l rest]. simpl in *.
      rewrite Hl. repeat split; [discriminate|lia].
Qed.

(** With fuel beyond the length of the file, the loop is the loop body
    folded over the lines of the file: it always ends. *)
Lemma read_loop_lines (fuel : nat) (f : text) (st : pstate) :
  length f < fuel ->
  read_loop fuel f st = Some (run_lines st (lines_of f)).
Proof.
  revert f st; induction fuel as [|fuel IH]; intros f st Hlt; [lia|].
  destruct f as [|c f]; [reflexivity|].
  destruct (readline_lines (c :: f)) as (Hne & Hl & Hlen); [discriminate|].
  rewrite Hl. cbn [read_loop].
  destruct (readline (c :: f)) as [line rest]. cbn [fst snd] in *.
  destruct line as [|x line]; [congruence|].
  cbn [length Nat.ltb Nat.leb]. unfold run_lines. cbn [for_each].
  destruct (process_line st (x :: line)) as [st'|e]; cbn [bind]; [|reflexivity].
  apply IH. lia.
Qed.

Lemma parse_lines (content : text) :
  parse content = Some (run_lines init_state (lines_of content)).
Proof. apply read_loop_lines. lia. Qed.

Lemma lines_of_app_line (l rest : text) :
  complete_line l = true -> lines_of (l ++ rest) = l :: lines_of rest.
Proof.
  induction l as [|c l IH]; [discriminate|].
  cbn [complete_line]. destruct l as [|c' l].
  - intros Hc. cbn [app lines_of]. now rewrite Hc.
  - intros H. apply andb_prop in H as [Hc Hl]. apply negb_true_iff in Hc.
    change ((c :: c' :: l) ++ rest) with (c :: (c' :: l) ++ rest).
    cbn [lines_of]. rewrite Hc, (IH Hl). reflexivity.
Qed.

(** The text made of complete lines reads back as these lines. *)
Lemma lines_of_concat (ls : list text) :
  forallb complete_line ls = true -> lines_of (concat ls) = ls.
Proof.
  induction ls as [|l ls IH]; [reflexivity|].
  cbn [forallb concat]. intros H. apply andb_prop in H as [Hl Hls].
  now rewrite (lines_of_app_line _ _ Hl), (IH Hls).
Qed.

Lemma forallb_repeat {A} (P : A -> bool) (x : A) (n : nat) :
  P x = true -> forallb P (repeat x n) = true.
Proof.
  intros Hx. induction n as [|n IH]; cbn [repeat forallb]; [reflexivity|].
  now rewrite Hx, IH.
Qed.

Lemma data_block_forallb (P : text -> bool) (first others : string) :
  P (data_line first others) = true -> P (data_line others others) = true ->
  forallb P (data_block first others) = true.
Proof.
  intros H1 H2. unfold data_block. cbn [forallb].
  now rewrite H1, forallb_repeat.
Qed.

Lemma lines_of_two_blocks (h1 h2 : text) (b1 b2 : list text) :
  complete_line h1 = true -> forallb complete_line b1 = true ->
  complete_line h2 = true -> forallb complete_line b2 = true ->
  lines_of (concat (h1 :: b1) ++ concat (h2 :: b2)) = h1 :: b1 ++ h2 :: b2.
Proof.
  intros Hh1 Hb1 Hh2 Hb2. rewrite <- concat_app.
  change (h1 :: b1 ++ h2 :: b2) with ((h1 :: b1) ++ h2 :: b2).
  apply lines_of_concat. rewrite forallb_app. cbn [forallb].
  now rewrite Hh1, Hb1, Hh2, Hb2.
Qed.

Lemma data_block_length (first others : string) :
  length (data_block first others) = 180.
Proof. unfold data_block. cbn [length]. now rewrite repeat_length. Qed.

(** ** Stores into an array *)

Lemma list_set_app {A} (pre post : list A) (x v : A) :
  list_set (pre ++ x :: post) (length pre) v = Some (pre ++ v :: post).
Proof.
  induction pre as [|a pre IH]; simpl; [reflexivity|]. now rewrite IH.
Qed.

Lemma grid_set_at (done rest : grid) (pre post : list Z) (x v : Z) :
  grid_set (done ++ (pre ++ x :: post) :: rest) (length done) (length pre) v
  = Some (done ++ (pre ++ v :: post) :: rest).
Proof.
  unfold grid_set.
  rewrite nth_error_app2, Nat.sub_diag by lia. cbn [nth_error].
  rewrite list_set_app. apply list_set_app.
Qed.

Lemma set_months_id (st : pstate) : set_months st (months st) = st.
Proof. now destruct st. Qed.

(** The inner loop over the columns still to fill: [pre] is the part of the
    row already stored, [post] the part still to be overwritten. *)
Lemma store_fields_row (line : text) (M : text) (done rest : grid) :
  forall (post pre : list Z) (st : pstate),
    var_M st = Some M ->
    var_r st = Some (length done) ->
    dict_get (months st) M = Some (done ++ (pre ++ post) :: rest) ->
    (forall c, In c (seq (length pre) (length post)) -> field line c <> None) ->
    for_each (store_field line) (seq (length pre) (length post)) st
    = Ok (set_months st
            (dict_set (months st) M
               (done ++ (pre ++ map (fun c => wrap16 (field_value line c))
                                    (seq (length pre) (length post))) :: rest))).
Proof.
  induction post as [|x post IH]; intros pre st HM Hr Hget Hf.
  - cbn [length seq map for_each]. rewrite (dict_set_get_id _ _ _ Hget).
    now rewrite set_months_id.
  - cbn [length seq map for_each].
    assert (Hc : field line (length pre) <> None) by (apply Hf; cbn [length seq]; now left).
    unfold store_field at 1. fold (field line (length pre)).
    unfold field_value at 1.
    destruct (field line (length pre)) as [v|]; [|congruence].
    cbn [or_raise bind]. rewrite HM. cbn [or_raise bind].
    rewrite Hget. cbn [or_raise bind]. rewrite Hr. cbn [or_raise bind].
    rewrite grid_set_at. cbn [or_raise bind].
    set (st' := set_months st _).
    assert (Hlen : S (length pre) = length (pre ++ [wrap16 v]))
      by (rewrite length_app; cbn [length]; lia).
    rewrite Hlen.
    rewrite (IH (pre ++ [wrap16 v]) st').
    + subst st'. destruct st; cbn [set_months months var_D var_M var_Y var_r].
      rewrite dict_set_set, <- app_assoc. reflexivity.
    + subst st'. now destruct st.
    + subst st'. now destruct st.
    + subst st'. destruct st; cbn [set_months months].
      rewrite dict_get_set_same, <- app_assoc. reflexivity.
    + intros c Hin. apply Hf. cbn [length seq]. right. now rewrite Hlen.
Qed.

Lemma data_ok_long (line : text) : data_ok line = true -> (length line <? 50) = false.
Proof.
  unfold data_ok. intros H. apply andb_prop in H as [H _].
  now apply negb_true_iff in H.
Qed.

Lemma data_ok_field (line : text) (c : nat) :
  data_ok line = true -> c < COLS -> field line c <> None.
Proof.
  unfold data_ok. intros H Hc. apply andb_prop in H as [_ H].
  rewrite forallb_forall in H. specialize (H c).
  destruct (field line c); [discriminate|].
  assert (false = true) by (apply H, in_seq; lia). discriminate.
Qed.

(** One data line stored into the first row that is still blank. *)
Lemma process_data_line (line : text) (st : pstate) (M : text)
      (done rest : grid) (old : list Z) :
  data_ok line = true ->
  var_M st = Some M ->
  var_r st = Some (length done) ->
  dict_get (months st) M = Some (done ++ old :: rest) ->
  length old = COLS ->
  process_line st line
  = Ok (mk_pstate (dict_set (months st) M (done ++ row_of line :: rest))
                  (var_D st) (var_M st) (var_Y st) (Some (length done + 1))).
Proof.
  intros Hok HM Hr Hget Hold. unfold process_line.
  rewrite (data_ok_long _ Hok).
  pose proof (store_fields_row line M done rest old [] st HM Hr Hget) as Hrow.
  cbn [length app] in Hrow. rewrite Hold in Hrow.
  rewrite Hrow.
  - cbn [bind]. destruct st; cbn [set_months months var_D var_M var_Y var_r] in *.
    rewrite Hr. reflexivity.
  - intros c Hin. apply in_seq in Hin. apply data_ok_field; [assumption|lia].
Qed.

(** ** Periods *)

Lemma zeros_length : length zeros = ROWS.
Proof. apply repeat_length. Qed.

Lemma zeros_rows : Forall (fun row => length row = COLS) zeros.
Proof.
  apply Forall_forall. intros row Hin.
  apply repeat_spec in Hin. subst row. apply repeat_length.
Qed.

(** Data lines stored one below the other, starting at the first blank row. *)
Lemma run_data_lines (M : text) :
  forall (rows : list text) (st : pstate) (done blanks : grid),
    forallb data_ok rows = true ->
    var_M st = Some M ->
    var_r st = Some (length done) ->
    dict_get (months st) M = Some (done ++ blanks) ->
    length rows <= length blanks ->
    Forall (fun row => length row = COLS) blanks ->
    run_lines st rows
    = Ok (mk_pstate
            (dict_set (months st) M (done ++ map row_of rows ++ skipn (length rows) blanks))
            (var_D st) (var_M st) (var_Y st) (Some (length done + length rows))).
Proof.
  induction rows as [|l rows IH]; intros st done blanks Hok HM Hr Hget Hlen Hbl.
  - cbn [map length skipn app run_lines for_each].
    rewrite (dict_set_get_id _ _ _ Hget), Nat.add_0_r, <- Hr. now destruct st.
  - destruct blanks as [|old blanks]; [cbn [length] in Hlen; lia|].
    cbn [forallb] in Hok. apply andb_prop in Hok as [Hl Hrows].
    inversion Hbl as [|? ? Hold Hbl']; subst.
    unfold run_lines. cbn [for_each].
    rewrite (process_data_line l st M done blanks old Hl HM Hr Hget Hold).
    cbn [bind]. fold (run_lines
      (mk_pstate (dict_set (months st) M (done ++ row_of l :: blanks))
                 (var_D st) (var_M st) (var_Y st) (Some (length done + 1))) rows).
    rewrite (IH _ (done ++ [row_of l]) blanks); cbn [months var_D var_M var_Y var_r].
    + rewrite dict_set_set, length_app, <- app_assoc.
      cbn [length map skipn app].
      replace (length done + 1 + length rows) with (length done + S (length rows)) by lia.
      reflexivity.
    + assumption.
    + assumption.
    + rewrite length_app. reflexivity.
    + rewrite dict_get_set_same, <- app_assoc. reflexivity.
    + cbn [length] in Hlen. lia.
    + assumption.
Qed.

(** A header line and the data lines of its period, from any state: the
    period's array is stored under the month token of the header. *)
Lemma run_block (st : pstate) (h : text) (rows : list text) (D M Y : text) (more : list text) :
  (length h <? 50) = true ->
  py_split h = D :: M :: Y :: more ->
  forallb data_ok rows = true ->
  length rows <= ROWS ->
  run_lines st (h :: rows)
  = Ok (mk_pstate (dict_set (months st) M (block_grid rows))
                  (Some D) (Some M) (Some Y) (Some (length rows))).
Proof.
  intros Hh Hsplit Hok Hlen.
  unfold run_lines. cbn [for_each]. unfold process_line at 1.
  rewrite Hh, Hsplit. cbn [bind].
  fold (run_lines (mk_pstate (dict_set (months st) M zeros)
                             (Some D) (Some M) (Some Y) (Some 0)) rows).
  rewrite (run_data_lines M rows _ [] zeros); cbn [months var_D var_M var_Y var_r app length].
  - rewrite dict_set_set. reflexivity.
  - assumption.
  - reflexivity.
  - reflexivity.
  - apply dict_get_set_same.
  - now rewrite zeros_length.
  - apply zeros_rows.
Qed.

Lemma run_lines_app (st : pstate) (l1 l2 : list text) :
  run_lines st (l1 ++ l2) = (st' <- run_lines st l1 ;; run_lines st' l2).
Proof. apply for_each_app. Qed.

Lemma wrap16_in_range (v : Z) : in_int16 v = true -> wrap16 v = v.
Proof.
  unfold in_int16, wrap16. intros H. apply andb_prop in H as [Hlo Hhi].
  apply Z.leb_le in Hlo, Hhi. rewrite Z.mod_small; lia.
Qed.

Lemma block_grid_full (rows : list text) :
  length rows = ROWS -> block_grid rows = map row_of rows.
Proof.
  intros H. unfold block_grid.
  rewrite skipn_all2 by (rewrite zeros_length; lia). apply app_nil_r.
Qed.

Lemma row_of_length (line : text) : length (row_of line) = COLS.
Proof. unfold row_of. now rewrite length_map, length_seq. Qed.

Lemma row_of_cell (line : text) (c : nat) (v : Z) :
  c < COLS -> field line c = Some v -> nth_error (row_of line) c = Some (wrap16 v).
Proof.
  intros Hc Hf. unfold row_of.
  rewrite nth_error_map, nth_error_seq.
  apply Nat.ltb_lt in Hc. rewrite Hc. cbn [option_map Nat.add].
  unfold field_value. now rewrite Hf.
Qed.

Lemma block_grid_length (rows : list text) :
  length rows <= ROWS -> length (block_grid rows) = ROWS.
Proof.
  intros H. unfold block_grid.
  rewrite length_app, length_map, length_skipn, zeros_length. lia.
Qed.

Lemma block_grid_rows (rows : list text) :
  Forall (fun row => length row = COLS) (block_grid rows).
Proof.
  unfold block_grid. apply Forall_app. split.
  - apply Forall_forall. intros row Hin. apply in_map_iff in Hin as (l & <- & _).
    apply row_of_length.
  - apply Forall_forall. intros row Hin.
    pose proof zeros_rows as Hz. rewrite Forall_forall in Hz.
    apply Hz. rewrite <- (firstn_skipn (length rows) zeros).
    apply in_or_app. now right.
Qed.

Lemma block_grid_cell (rows : list text) (r c : nat) (line : text) (v : Z) :
  nth_error rows r = Some line -> c < COLS -> field line c = Some v ->
  cell (block_grid rows) r c = Some (wrap16 v).
Proof.
  intros Hr Hc Hf. unfold cell, block_grid.
  assert (Hlt : r < length rows) by (apply nth_error_Some; congruence).
  rewrite nth_error_app1 by now rewrite length_map.
  rewrite (map_nth_error row_of _ _ Hr). now apply row_of_cell.
Qed.

(** ** The parser on a file of one period *)

Lemma parse_one_period
      (content h : text) (rows : list text) (D M Y : text) (more : list text) :
  lines_of content = h :: rows ->
  (length h <? 50) = true ->
  py_split h = D :: M :: Y :: more ->
  length rows <= ROWS ->
  forallb data_ok rows = true ->
  parse content
  = Some (Ok (mk_pstate [(M, block_grid rows)] (Some D) (Some M) (Some Y)
                        (Some (length rows)))).
Proof.
  intros Hlines Hh Hsplit Hle Hok.
  rewrite parse_lines, Hlines.
  now rewrite (run_block init_state h rows D M Y more Hh Hsplit Hok Hle).
Qed.

(** C1, as amended.  For every input whose lines are a header line (shorter
    than 50 characters, with day, month and year tokens) followed by exactly
    180 data lines of 360 integer fields each, the parser returns a mapping
    with the single key M, the header's month token, and a grid of 180 rows
    and 360 columns; cell [r][c] holds the integer parsed from characters
    [6c, 6c+6) of the r-th data line, stored as an int16: the integer itself
    when it lies in -32768..32767, and its wrap-around otherwise.  The row
    cursor ends at 180. *)
Theorem parser_row_column_exactness
        (content h : text) (rows : list text) (D M Y : text) (more : list text) :
  lines_of content = h :: rows ->
  (length h <? 50) = true ->
  py_split h = D :: M :: Y :: more ->
  length rows = 180 ->
  forallb data_ok rows = true ->
  exists st na,
    parse content = Some (Ok st) /\
    months st = [(M, na)] /\ var_r st = Some 180 /\
    length na = 180 /\ Forall (fun row => length row = 360) na /\
    forall r c line v,
      nth_error rows r = Some line -> c < 360 -> field line c = Some v ->
      cell na r c = Some (wrap16 v) /\
      (in_int16 v = true -> cell na r c = Some v).
Proof.
  intros Hlines Hh Hsplit Hlen Hok.
  exists (mk_pstate [(M, block_grid rows)] (Some D) (Some M) (Some Y) (Some 180)).
  exists (block_grid rows).
  assert (Hle : length rows <= ROWS) by (unfold ROWS; lia).
  split; [|split; [reflexivity|split; [reflexivity|split; [|split]]]].
  - rewrite (parse_one_period content h rows D M Y more Hlines Hh Hsplit Hle Hok).
    now rewrite Hlen.
  - now apply block_grid_length.
  - apply block_grid_rows.
  - intros r c line v Hr Hc Hf.
    pose proof (block_grid_cell rows r c line v Hr Hc Hf) as Hcell.
    split; [exact Hcell|].
    intros Hin. rewrite Hcell. f_equal. now apply wrap16_in_range.
Qed.


(** ** The parser on the sample inputs *)

Lemma header_line_complete :
  complete_line (header_line "01" "1870") = true /\
  complete_line (header_line "02" "1870") = true.
Proof. split; by_evaluation. Qed.

Lemma common_line_ok :
  complete_line (data_line "   271" "   271") = true /\
  data_ok (data_line "   271" "   271") = true /\
  (length (data_line "   271" "   271") =? 6 * 360 + 1) = true.
Proof. repeat split; by_evaluation. Qed.

Lemma one_period_lines (first : string) :
  complete_line (data_line first "   271") = true ->
  lines_of (one_period_file first)
  = header_line "01" "1870" :: data_block first "   271".
Proof.
  intros Hfirst. unfold one_period_file. apply lines_of_concat.
  cbn [forallb]. rewrite (proj1 header_line_complete).
  apply data_block_forallb; [exact Hfirst|apply common_line_ok].
Qed.

Lemma parser_row_column_exactness_witness :
  exists st na,
    parse (one_period_file "  1234") = Some (Ok st) /\
    months st = [(txt "01", na)] /\ var_r st = Some 180 /\
    length na = 180 /\ Forall (fun row => length row = 360) na /\
    forall r c line v,
      nth_error (data_block "  1234" "   271") r = Some line -> c < 360 ->
      field line c = Some v ->
      cell na r c = Some (wrap16 v) /\
      (in_int16 v = true -> cell na r c = Some v).
Proof.
  apply (parser_row_column_exactness
           (one_period_file "  1234") (header_line "01" "1870")
           (data_block "  1234" "   271") (txt "1") (txt "01") (txt "1870") []).
  - apply one_period_lines. by_evaluation.
  - by_evaluation.
  - by_evaluation.
  - apply data_block_length.
  - apply data_block_forallb; [by_evaluation|apply common_line_ok].
Defined.

(** C1 as it was stated fails on a field outside the int16 range.  The file
    below is a header line and 180 data lines of 360 six-character integer
    fields; the first field of the first data line is 040000, and the cell
    it is stored in holds -25536. *)
Lemma parser_int16_counterexample :
  lines_of (one_period_file "040000")
  = header_line "01" "1870" :: data_block "040000" "   271" /\
  length (data_block "040000" "   271") = 180 /\
  forallb (fun line => length line =? 6 * 360 + 1) (data_block "040000" "   271") = true /\
  forallb data_ok (data_block "040000" "   271") = true /\
  nth_error (data_block "040000" "   271") 0 = Some (data_line "040000" "   271") /\
  field (data_line "040000" "   271") 0 = Some 40000%Z /\
  exists st na,
    parse (one_period_file "040000") = Some (Ok st) /\
    months st = [(txt "01", na)] /\
    cell na 0 0 = Some (-25536)%Z /\
    cell na 0 0 <> Some 40000%Z.
Proof.
  assert (Hlines : lines_of (one_period_file "040000")
                   = header_line "01" "1870" :: data_block "040000" "   271")
    by (apply one_period_lines; by_evaluation).
  assert (Hok : forallb data_ok (data_block "040000" "   271") = true)
    by (apply data_block_forallb; [by_evaluation|apply common_line_ok]).
  assert (Hf : field (data_line "040000" "   271") 0 = Some 40000%Z)
    by (by_evaluation).
  split; [exact Hlines|]. split; [apply data_block_length|].
  split; [apply data_block_forallb; [by_evaluation|apply common_line_ok]|].
  split; [exact Hok|].
  split; [reflexivity|]. split; [exact Hf|].
  exists (mk_pstate [(txt "01", block_grid (data_block "040000" "   271"))]
                    (Some (txt "1")) (Some (txt "01")) (Some (txt "1870"))
                    (Some (length (data_block "040000" "   271")))).
  exists (block_grid (data_block "040000" "   271")).
  split; [|split; [reflexivity|]].
  - apply (parse_one_period _ (header_line "01" "1870") _ (txt "1") (txt "01") (txt "1870") []);
      [exact Hlines|by_evaluation|by_evaluation
      |rewrite data_block_length; unfold ROWS; lia|exact Hok].
  - assert (Hcell : cell (block_grid (data_block "040000" "   271")) 0 0
                    = Some (wrap16 40000))
      by (apply (block_grid_cell _ 0 0 (data_line "040000" "   271"));
          [reflexivity|unfold COLS; lia|exact Hf]).
    rewrite Hcell. split; [reflexivity|discriminate].
Qed.

(** ** Every parsed cell is an int16 *)

Lemma wrap16_int16 (v : Z) : in_int16 (wrap16 v) = true.
Proof.
  unfold in_int16, wrap16.
  pose proof (Z.mod_pos_bound (v + 32768) 65536 eq_refl) as H.
  apply andb_true_intro. split; apply Z.leb_le; lia.
Qed.

Lemma list_set_nth {A} (l l' : list A) (i j : nat) (x y : A) :
  list_set l i x = Some l' -> nth_error l' j = Some y ->
  (j = i /\ y = x) \/ nth_error l j = Some y.
Proof.
  revert l' i j; induction l as [|a l IH]; intros l' i j Hset Hnth; [discriminate|].
  destruct i as [|i]; cbn [list_set] in Hset.
  - injection Hset as <-. destruct j as [|j]; cbn [nth_error] in *.
    + injection Hnth as <-. now left.
    + now right.
  - destruct (list_set l i x) as [t|] eqn:E; cbn [option_map] in Hset; [|discriminate].
    injection Hset as <-. destruct j as [|j]; cbn [nth_error] in *.
    + now right.
    + destruct (IH t i j E Hnth) as [[-> ->]|H]; [now left|now right].
Qed.

Lemma grid_set_cell (na na' : grid) (r c r' c' : nat) (v raw : Z) :
  grid_set na r c v = Some na' -> cell na' r' c' = Some raw ->
  raw = v \/ cell na r' c' = Some raw.
Proof.
  unfold grid_set, cell. intros Hset Hcell.
  destruct (nth_error na r) as [row|] eqn:Hrow; [|discriminate].
  destruct (list_set row c v) as [row'|] eqn:Hrow'; [|discriminate].
  destruct (nth_error na' r') as [row2|] eqn:Hrow2; [|discriminate].
  destruct (list_set_nth na na' r r' row' row2 Hset Hrow2) as [[-> ->]|Hold].
  - rewrite Hrow.
    destruct (list_set_nth row row' c c' v raw Hrow' Hcell) as [[_ ->]|H];
      [now left|now right].
  - right. now rewrite Hold.
Qed.

Lemma zeros_cell (r c : nat) (raw : Z) : cell zeros r c = Some raw -> raw = 0%Z.
Proof.
  unfold cell. intros H.
  destruct (nth_error zeros r) as [row|] eqn:Hrow; [|discriminate].
  apply nth_error_In in Hrow. apply repeat_spec in Hrow. subst row.
  apply nth_error_In in H. now apply repeat_spec in H.
Qed.

Lemma dict_set_in {V} (d : dict V) (k k' : text) (v v' : V) :
  In (k', v') (dict_set d k v) -> v' = v \/ In (k', v') d.
Proof.
  induction d as [|[k0 v0] d IH]; cbn [dict_set].
  - intros [[= _ <-]|[]]. now left.
  - destruct (text_eqb k0 k).
    + intros [[= _ <-]|H]; [now left|right; now right].
    + intros [H|H]; [right; now left|].
      destruct (IH H) as [->|Hin]; [now left|right; now right].
Qed.

Lemma dict_get_in {V} (d : dict V) (k : text) (v : V) :
  dict_get d k = Some v -> In (k, v) d.
Proof.
  induction d as [|[k0 v0] d IH]; cbn [dict_get]; [discriminate|].
  destruct (text_eqb k0 k) eqn:E.
  - intros [= ->]. apply text_eqb_eq in E. subst. now left.
  - intros H. right. now apply IH.
Qed.

Lemma store_field_int16 (line : text) (st st' : pstate) (c : nat) :
  cells_int16 st -> store_field line st c = Ok st' -> cells_int16 st'.
Proof.
  unfold store_field. intros Hinv H.
  destruct (py_int _) as [v|]; cbn [or_raise bind] in H; [|discriminate].
  destruct (var_M st) as [M|]; cbn [or_raise bind] in H; [|discriminate].
  destruct (dict_get _ _) as [na|] eqn:Hget; cbn [or_raise bind] in H; [|discriminate].
  destruct (var_r st) as [r|]; cbn [or_raise bind] in H; [|discriminate].
  destruct (grid_set _ _ _ _) as [na'|] eqn:Hset; cbn [or_raise bind] in H; [|discriminate].
  injection H as <-. intros M' g r' c' raw Hin Hcell.
  unfold set_months in Hin. cbn [months] in Hin.
  apply dict_set_in in Hin as [->|Hin].
  - destruct (grid_set_cell _ _ _ _ _ _ _ _ Hset Hcell) as [->|Hold].
    + apply wrap16_int16.
    + apply dict_get_in in Hget. exact (Hinv M na r' c' raw Hget Hold).
  - exact (Hinv M' g r' c' raw Hin Hcell).
Qed.

Lemma for_each_invariant {S X} (body : S -> X -> result S) (P : S -> Prop) :
  (forall s x s', P s -> body s x = Ok s' -> P s') ->
  forall xs s s', P s -> for_each body xs s = Ok s' -> P s'.
Proof.
  intros Hstep. induction xs as [|x xs IH]; intros s s' Hs H; cbn [for_each] in H.
  - now injection H as <-.
  - destruct (body s x) as [s1|] eqn:E; cbn [bind] in H; [|discriminate].
    exact (IH s1 s' (Hstep s x s1 Hs E) H).
Qed.

Lemma process_line_int16 (st st' : pstate) (line : text) :
  cells_int16 st -> process_line st line = Ok st' -> cells_int16 st'.
Proof.
  unfold process_line. intros Hinv H.
  destruct (length line <? 50).
  - destruct (py_split line) as [|D [|M [|Y more]]]; try discriminate.
    injection H as <-. intros M' g r c raw Hin Hcell. cbn [months] in Hin.
    apply dict_set_in in Hin as [->|Hin].
    + apply zeros_cell in Hcell. now subst raw.
    + exact (Hinv M' g r c raw Hin Hcell).
  - destruct (for_each _ _ st) as [st1|] eqn:E; cbn [bind] in H; [|discriminate].
    destruct (var_r st1); cbn [or_raise bind] in H; [|discriminate].
    injection H as <-.
    assert (H1 : cells_int16 st1).
    { apply (for_each_invariant (store_field line) cells_int16) with (xs := seq 0 COLS) (s := st);
        [|assumption|assumption].
      intros s x s'. apply store_field_int16. }
    exact H1.
Qed.

(** Whatever the input, the arrays of a successful parse hold int16 values
    only: the cells the colour mapper is given are in range. *)
Lemma parsed_cells_int16 (content : text) (st : pstate) :
  parse content = Some (Ok st) -> cells_int16 st.
Proof.
  rewrite parse_lines. intros [= H].
  apply (for_each_invariant process_line cells_int16) with (xs := lines_of content) (s := init_state).
  - intros s x s' Hs Hx. exact (process_line_int16 s s' x Hs Hx).
  - intros M na r c raw [].
  - exact H.
Qed.

(** ** Malformed input *)

Lemma not_ok_raises {A} (m : result A) : is_ok m = false -> exists e, m = Raise e.
Proof. destruct m as [a|e]; [discriminate|]. intros _. now exists e. Qed.

Lemma store_field_bad (line : text) (st : pstate) (c : nat) :
  field line c = None -> store_field line st c = Raise ValueError.
Proof. unfold store_field, field. intros ->. reflexivity. Qed.

Lemma store_field_unbound (line : text) (st : pstate) (c : nat) :
  var_M st = None -> is_ok (store_field line st c) = false.
Proof.
  unfold store_field. intros HM.
  destruct (py_int _); cbn [or_raise bind]; [|reflexivity].
  rewrite HM. reflexivity.
Qed.

(** A data line with a field that is no integer raises, whatever was read
    before it. *)
Lemma process_line_bad_field (line : text) (st : pstate) (c : nat) :
  (length line <? 50) = false -> c < COLS -> field line c = None ->
  is_ok (process_line st line) = false.
Proof.
  intros Hlong Hc Hf. unfold process_line. rewrite Hlong.
  assert (H : is_ok (for_each (store_field line) (seq 0 COLS) st) = false).
  { apply for_each_raises with (x := c).
    - apply in_seq. lia.
    - intros s'. now rewrite store_field_bad. }
  destruct (for_each _ _ st); [discriminate|reflexivity].
Qed.

(** A data line read while no header has bound [M] raises. *)
Lemma process_line_no_header (line : text) (st : pstate) :
  (length line <? 50) = false -> var_M st = None ->
  is_ok (process_line st line) = false.
Proof.
  intros Hlong HM. unfold process_line. rewrite Hlong.
  change (seq 0 COLS) with (0 :: seq 1 359). cbn [for_each].
  pose proof (store_field_unbound line st 0 HM) as H.
  destruct (store_field line st 0); [discriminate|reflexivity].
Qed.

(** The last field slot of a line whose text before the line end stops
    short of it holds no integer. *)
Lemma short_line_last_field (body tail : text) :
  tail = [] \/ tail = nl -> length body < 2155 ->
  field (body ++ tail) 359 = None.
Proof.
  intros Htail Hlen. unfold field, py_slice.
  replace (6 * 359 + 6 - 6 * 359) with 6 by lia.
  rewrite skipn_app, (skipn_all2 body) by lia. cbn [app].
  destruct Htail as [->| ->].
  - rewrite skipn_nil. reflexivity.
  - destruct (6 * 359 - length body) as [|k]; [reflexivity|].
    cbn [nl skipn]. rewrite skipn_nil. reflexivity.
Qed.

Lemma run_lines_raises (st : pstate) (lines : list text) (line : text) :
  In line lines -> (forall st', is_ok (process_line st' line) = false) ->
  is_ok (run_lines st lines) = false.
Proof. apply for_each_raises. Qed.

Lemma main_raises (fs : filesystem) (content : text) (e : pyerror) :
  parse content = Some (Raise e) -> main fs content = Some ([], Raise e).
Proof. unfold main. now intros ->. Qed.

(** C7, as amended.  An input with a data line (a line of 50 or more
    characters) whose text before the line end has fewer than 2155
    characters, so that nothing of its last field is there, or with a data
    line before any header line, makes the parser raise; the script stops
    there and writes nothing, whatever the file system. *)
Theorem malformed_input_raises (fs : filesystem) (content : text) :
  (exists body tail,
      In (body ++ tail) (lines_of content) /\ (tail = [] \/ tail = nl) /\
      50 <= length (body ++ tail) /\ length body < 2155)
  \/ (exists pre line post,
         lines_of content = pre ++ line :: post /\
         Forall (fun l => 50 <= length l) pre /\ 50 <= length line) ->
  exists e, parse content = Some (Raise e) /\ main fs content = Some ([], Raise e).
Proof.
  intros H.
  assert (Hbad : is_ok (run_lines init_state (lines_of content)) = false).
  { destruct H as [(body & tail & Hin & Htail & Hlong & Hshort)
                  |(pre & line & post & Hlines & Hpre & Hlong)].
    - apply run_lines_raises with (line := body ++ tail); [assumption|].
      intros st'. apply process_line_bad_field with (c := 359).
      + apply Nat.ltb_ge. assumption.
      + unfold COLS. lia.
      + now apply short_line_last_field.
    - rewrite Hlines.
      assert (Hfirst : exists l ls, pre ++ line :: post = l :: ls /\ 50 <= length l).
      { destruct pre as [|l pre]; [now exists line, post|].
        inversion Hpre; subst. now exists l, (pre ++ line :: post). }
      destruct Hfirst as (l & ls & -> & Hl).
      unfold run_lines. cbn [for_each].
      assert (Hl' : is_ok (process_line init_state l) = false).
      { apply process_line_no_header; [now apply Nat.ltb_ge|reflexivity]. }
      destruct (process_line init_state l); [discriminate|reflexivity]. }
  apply not_ok_raises in Hbad as [e He].
  exists e. assert (Hp : parse content = Some (Raise e)) by now rewrite parse_lines, He.
  split; [exact Hp|now apply main_raises].
Qed.

Lemma malformed_input_raises_witness :
  (exists e, parse stub_file = Some (Raise e) /\
             main accept_all stub_file = Some ([], Raise e)) /\
  (exists e, parse headless_file = Some (Raise e) /\
             main accept_all headless_file = Some ([], Raise e)).
Proof.
  split.
  - apply (malformed_input_raises accept_all stub_file).
    left. exists stub_line, nl.
    split; [vm_compute; tauto|].
    split; [now right|].
    split; vm_compute; lia.
  - apply (malformed_input_raises accept_all headless_file).
    right. exists [], (data_line "   271" "   271"), [header_line "01" "1870"].
    split; [by_evaluation|].
    split; [constructor|vm_compute; lia].
Defined.

(** The errors of the two sample files: [int] on the empty field of the
    short line, and the unbound [M] of the data line that comes first. *)
Example stub_file_error : parse stub_file = Some (Raise ValueError).
Proof. by_evaluation. Qed.

Example headless_file_error : parse headless_file = Some (Raise NameError).
Proof. by_evaluation. Qed.

Lemma main_ok (fs : filesystem) (content : text) (st : pstate) :
  parse content = Some (Ok st) ->
  main fs content = Some (render_loop fs (var_Y st) (months st) []).
Proof. unfold main. now intros ->. Qed.

(** C7 as it was stated fails on a data line that is shorter than 2160
    characters and still has the first digits of its last field: the slice of
    the last field is cut at the end of the line and [int] accepts it.  The
    run below reads such a line of 2156 characters and, in a directory that
    takes every name, writes both files. *)
Lemma short_data_line_counterexample :
  lines_of short_file = [header_line "01" "1870"; short_line] /\
  50 <= length short_line /\ length short_line < 2160 /\
  exists st na log,
    parse short_file = Some (Ok st) /\
    months st = [(txt "01", na)] /\
    cell na 0 359 = Some 7%Z /\
    main accept_all short_file = Some (log, Ok tt) /\
    map fst log = [txt "01-01-1870-raw.tif"; txt "01-01-1870-RGB.png"].
Proof.
  assert (Hlines : lines_of short_file = [header_line "01" "1870"; short_line])
    by (by_evaluation).
  assert (Hok : forallb data_ok [short_line] = true) by (by_evaluation).
  assert (Hparse : parse short_file
                   = Some (Ok (mk_pstate [(txt "01", block_grid [short_line])]
                                         (Some (txt "1")) (Some (txt "01"))
                                         (Some (txt "1870")) (Some 1)))).
  { apply (parse_one_period _ (header_line "01" "1870") [short_line]
                            (txt "1") (txt "01") (txt "1870") []);
      [exact Hlines|by_evaluation|by_evaluation
      |vm_compute; lia|exact Hok]. }
  split; [exact Hlines|]. split; [vm_compute; lia|]. split; [vm_compute; lia|].
  eexists. exists (block_grid [short_line]). eexists.
  split; [exact Hparse|]. split; [reflexivity|].
  split.
  { rewrite (block_grid_cell [short_line] 0 359 short_line 7);
      [reflexivity|reflexivity|unfold COLS; lia|by_evaluation]. }
  split.
  { rewrite (main_ok accept_all _ _ Hparse).
    cbn [months var_Y render_loop render_month write accept_all app]. reflexivity. }
  reflexivity.
Qed.

(** ** Files of several periods *)

Lemma block_grid_populated (rows : list text) :
  length rows <= ROWS -> populated_from (block_grid rows) rows.
Proof.
  intros Hle. split; [now apply block_grid_length|].
  split; [apply block_grid_rows|]. intros r c line v. apply block_grid_cell.
Qed.

Lemma parse_two_periods
      (content h1 h2 : text) (rows1 rows2 : list text)
      (D1 M1 Y1 D2 M2 Y2 : text) (more1 more2 : list text) :
  lines_of content = h1 :: rows1 ++ h2 :: rows2 ->
  (length h1 <? 50) = true -> py_split h1 = D1 :: M1 :: Y1 :: more1 ->
  (length h2 <? 50) = true -> py_split h2 = D2 :: M2 :: Y2 :: more2 ->
  length rows1 <= ROWS -> length rows2 <= ROWS ->
  forallb data_ok rows1 = true -> forallb data_ok rows2 = true ->
  parse content
  = Some (Ok (mk_pstate (dict_set [(M1, block_grid rows1)] M2 (block_grid rows2))
                        (Some D2) (Some M2) (Some Y2) (Some (length rows2)))).
Proof.
  intros Hlines Hh1 Hs1 Hh2 Hs2 Hl1 Hl2 Hok1 Hok2.
  rewrite parse_lines, Hlines.
  change (h1 :: rows1 ++ h2 :: rows2) with ((h1 :: rows1) ++ h2 :: rows2).
  rewrite run_lines_app.
  rewrite (run_block init_state h1 rows1 D1 M1 Y1 more1 Hh1 Hs1 Hok1 Hl1).
  cbn [bind].
  rewrite (run_block _ h2 rows2 D2 M2 Y2 more2 Hh2 Hs2 Hok2 Hl2).
  reflexivity.
Qed.

(** C8.  The mapping is keyed by the month token alone.  A file of two
    headers, each followed by a full block of 180 data lines, parses to a
    mapping whose grids are populated from their own block only; when the two
    month tokens differ the mapping has exactly these two entries, in the
    order of the file, and when the two headers carry the same month token it
    has one entry, which holds the grid of the later header. *)
Theorem months_keyed_by_month_token
        (content h1 h2 : text) (rows1 rows2 : list text)
        (D1 M1 Y1 D2 M2 Y2 : text) (more1 more2 : list text) :
  lines_of content = h1 :: rows1 ++ h2 :: rows2 ->
  (length h1 <? 50) = true -> py_split h1 = D1 :: M1 :: Y1 :: more1 ->
  (length h2 <? 50) = true -> py_split h2 = D2 :: M2 :: Y2 :: more2 ->
  length rows1 = 180 -> length rows2 = 180 ->
  forallb data_ok rows1 = true -> forallb data_ok rows2 = true ->
  exists st na1 na2,
    parse content = Some (Ok st) /\
    populated_from na1 rows1 /\ populated_from na2 rows2 /\
    (M1 <> M2 -> months st = [(M1, na1); (M2, na2)]) /\
    (M1 = M2 -> months st = [(M2, na2)]).
Proof.
  intros Hlines Hh1 Hs1 Hh2 Hs2 Hl1 Hl2 Hok1 Hok2.
  assert (Hle1 : length rows1 <= ROWS) by (unfold ROWS; lia).
  assert (Hle2 : length rows2 <= ROWS) by (unfold ROWS; lia).
  eexists. exists (block_grid rows1), (block_grid rows2).
  split.
  { exact (parse_two_periods content h1 h2 rows1 rows2 D1 M1 Y1 D2 M2 Y2 more1 more2
                             Hlines Hh1 Hs1 Hh2 Hs2 Hle1 Hle2 Hok1 Hok2). }
  split; [now apply block_grid_populated|].
  split; [now apply block_grid_populated|].
  cbn [months dict_set]. split.
  - intros Hne. now rewrite (text_eqb_neq _ _ Hne).
  - intros ->. now rewrite text_eqb_refl.
Qed.

Lemma two_period_lines :
  lines_of (two_period_file "01" "02")
  = header_line "01" "1870" :: data_block "  1234" "   271"
    ++ header_line "02" "1870" :: data_block "  1234" "   271".
Proof.
  assert (Hblock : forallb complete_line (data_block "  1234" "   271") = true)
    by (apply data_block_forallb; [by_evaluation|apply common_line_ok]).
  exact (lines_of_two_blocks _ _ _ _ (proj1 header_line_complete) Hblock
                             (proj2 header_line_complete) Hblock).
Qed.

Lemma months_keyed_by_month_token_witness :
  exists st na1 na2,
    parse (two_period_file "01" "02") = Some (Ok st) /\
    populated_from na1 (data_block "  1234" "   271") /\
    populated_from na2 (data_block "  1234" "   271") /\
    (txt "01" <> txt "02" -> months st = [(txt "01", na1); (txt "02", na2)]) /\
    (txt "01" = txt "02" -> months st = [(txt "02", na2)]).
Proof.
  assert (Hok : forallb data_ok (data_block "  1234" "   271") = true)
    by (apply data_block_forallb; [by_evaluation|apply common_line_ok]).
  apply (months_keyed_by_month_token
           (two_period_file "01" "02") (header_line "01" "1870") (header_line "02" "1870")
           (data_block "  1234" "   271") (data_block "  1234" "   271")
           (txt "1") (txt "01") (txt "1870") (txt "1") (txt "02") (txt "1870") [] []).
  - exact two_period_lines.
  - by_evaluation.
  - by_evaluation.
  - by_evaluation.
  - by_evaluation.
  - apply data_block_length.
  - apply data_block_length.
  - exact Hok.
  - exact Hok.
Defined.

(** ** The colour mapper, cell by cell *)

Lemma zip_with_map_l {A B C} (g : B -> A -> C) (f : A -> B) (xs : list A) :
  zip_with g (map f xs) xs = map (fun x => g (f x) x) xs.
Proof. induction xs as [|x xs IH]; cbn [map zip_with]; [reflexivity|now rewrite IH]. Qed.

Lemma mask_assign_amap (f : Z -> Z) (na : grid) (s v : Z) :
  mask_assign (amap f na) na s v
  = amap (fun n => if (n =? s)%Z then v else f n) na.
Proof.
  unfold mask_assign, amap. rewrite zip_with_map_l.
  apply map_ext. intros row. apply zip_with_map_l.
Qed.

Lemma amap_amap {A B C} (f : A -> B) (g : B -> C) (a : list (list A)) :
  amap g (amap f a) = amap (fun x => g (f x)) a.
Proof.
  unfold amap. rewrite map_map. apply map_ext. intros row. apply map_map.
Qed.

Lemma cell_amap {A B} (f : A -> B) (a : list (list A)) (r c : nat) :
  cell (amap f a) r c = option_map f (cell a r c).
Proof.
  unfold cell, amap. rewrite nth_error_map.
  destruct (nth_error a r) as [row|]; cbn [option_map]; [|reflexivity].
  apply nth_error_map.
Qed.

(** The whole-array statements act on every cell on its own. *)
Lemma colour_map_cells (na : grid) : colour_map na = amap cell_steps na.
Proof.
  unfold colour_map. cbv zeta.
  rewrite !amap_amap, !mask_assign_amap. reflexivity.
Qed.

Lemma colour_map_cell (na : grid) (r c : nat) :
  cell (colour_map na) r c = option_map cell_steps (cell na r c).
Proof. rewrite colour_map_cells. apply cell_amap. Qed.

Lemma all_from_spec (P : Z -> bool) (n : nat) :
  forall lo, all_from n lo P = true ->
  forall z, (lo <= z < lo + Z.of_nat n)%Z -> P z = true.
Proof.
  induction n as [|n IH]; intros lo H z Hz; [lia|].
  cbn [all_from] in H. apply andb_prop in H as [Hlo Hrest].
  destruct (Z.eq_dec z lo) as [->|Hne]; [assumption|].
  apply (IH (lo + 1)%Z Hrest). lia.
Qed.

Lemma all_int16_spec (P : Z -> bool) :
  all_int16 P = true -> forall z, in_int16 z = true -> P z = true.
Proof.
  unfold all_int16, in_int16. intros H z Hz.
  apply andb_prop in Hz as [Hlo Hhi]. apply Z.leb_le in Hlo, Hhi.
  apply (all_from_spec P _ _ H). rewrite Z2Nat.id; lia.
Qed.

(** On every int16 value the cell's steps agree with the per-cell rule, and
    the gradient stays within the palette. *)
Lemma cell_steps_checked :
  all_int16 (fun raw => (cell_steps raw =? spec_palette_index raw)%Z
                        && (2 <=? spec_gradient_index raw)%Z
                        && (spec_gradient_index raw <=? 255)%Z) = true.
Proof. by_evaluation. Qed.

Lemma clamp_checked :
  all_int16 (fun raw => (if (raw <=? -500)%Z then (spec_gradient_index raw =? 2)%Z else true)
                        && (if (3000 <=? raw)%Z then (spec_gradient_index raw =? 255)%Z else true))
  = true.
Proof. by_evaluation. Qed.

Lemma step_checked :
  all_int16 (fun raw => (raw =? 32767)%Z
                        || (spec_gradient_index raw <=? spec_gradient_index (raw + 1))%Z) = true.
Proof. by_evaluation. Qed.

Lemma cell_steps_int16 (raw : Z) :
  in_int16 raw = true ->
  cell_steps raw = spec_palette_index raw /\ (2 <= spec_gradient_index raw <= 255)%Z.
Proof.
  intros Hin. pose proof (all_int16_spec _ cell_steps_checked raw Hin) as H.
  cbv beta in H. apply andb_prop in H as [H Hhi]. apply andb_prop in H as [Heq Hlo].
  apply Z.eqb_eq in Heq. apply Z.leb_le in Hlo, Hhi. lia.
Qed.

Lemma palette_index_gradient (raw : Z) :
  raw <> (-32768)%Z -> raw <> (-1000)%Z -> spec_palette_index raw = spec_gradient_index raw.
Proof.
  intros H1 H2. unfold spec_palette_index.
  apply Z.eqb_neq in H1, H2. now rewrite H1, H2.
Qed.

Lemma gradient_monotone (a b : Z) :
  in_int16 a = true -> in_int16 b = true -> (a <= b)%Z ->
  (spec_gradient_index a <= spec_gradient_index b)%Z.
Proof.
  intros Ha Hb Hab.
  assert (Hn : forall n : nat, in_int16 (a + Z.of_nat n) = true ->
                               (spec_gradient_index a <= spec_gradient_index (a + Z.of_nat n))%Z).
  { induction n as [|n IH]; intros Hin.
    - rewrite Z.add_0_r. lia.
    - unfold in_int16 in Ha, Hin.
      apply andb_prop in Ha as [Ha1 Ha2]. apply andb_prop in Hin as [Hn1 Hn2].
      apply Z.leb_le in Ha1, Ha2, Hn1, Hn2.
      assert (Hprev : in_int16 (a + Z.of_nat n) = true).
      { unfold in_int16. apply andb_true_intro. split; apply Z.leb_le; lia. }
      specialize (IH Hprev).
      pose proof (all_int16_spec _ step_checked _ Hprev) as Hs. cbv beta in Hs.
      apply orb_prop in Hs as [Hs|Hs].
      + apply Z.eqb_eq in Hs. lia.
      + apply Z.leb_le in Hs.
        replace (a + Z.of_nat (S n))%Z with (a + Z.of_nat n + 1)%Z by lia. lia. }
  specialize (Hn (Z.to_nat (b - a))).
  rewrite Z2Nat.id in Hn by lia.
  replace (a + (b - a))%Z with b in Hn by lia. auto.
Qed.

(** C2.  For every cell of a grid of int16 values whose raw value is neither
    -32768 nor -1000, the index the colour mapper writes is the one the rule
    gives: deg = raw / 100.0, deg' = deg + 5, idx = deg' * (253/35) + 2,
    clamped to [2, 255], truncated; and it lies in 2..255. *)
Theorem gradient_rule (na : grid) (r c : nat) (raw : Z) :
  cell na r c = Some raw ->
  in_int16 raw = true ->
  raw <> (-32768)%Z -> raw <> (-1000)%Z ->
  cell (colour_map na) r c = Some (spec_gradient_index raw) /\
  (2 <= spec_gradient_index raw <= 255)%Z.
Proof.
  intros Hcell Hin Hland Hice.
  destruct (cell_steps_int16 raw Hin) as [Heq Hrange].
  split; [|exact Hrange].
  rewrite colour_map_cell, Hcell. cbn [option_map].
  now rewrite Heq, palette_index_gradient.
Qed.

Lemma gradient_rule_witness :
  cell (colour_map [[1500; -32768]; [-1000; 271]]%Z) 1 1 = Some (spec_gradient_index 271) /\
  (2 <= spec_gradient_index 271 <= 255)%Z.
Proof.
  apply (gradient_rule [[1500; -32768]; [-1000; 271]]%Z 1 1 271%Z).
  - reflexivity.
  - reflexivity.
  - lia.
  - lia.
Defined.

(** C3.  In every grid, a cell that holds -32768 is given index 0 and a
    cell that holds -1000 is given index 1, whatever the other cells hold. *)
Theorem sentinel_mapping (na : grid) (r c : nat) :
  (cell na r c = Some (-32768)%Z -> cell (colour_map na) r c = Some 0%Z) /\
  (cell na r c = Some (-1000)%Z -> cell (colour_map na) r c = Some 1%Z).
Proof.
  split; intros H; rewrite colour_map_cell, H; reflexivity.
Qed.

Lemma sentinel_mapping_witness :
  cell (colour_map [[1500; -32768]; [-1000; 271]]%Z) 0 1 = Some 0%Z /\
  cell (colour_map [[1500; -32768]; [-1000; 271]]%Z) 1 0 = Some 1%Z.
Proof.
  split.
  - apply (proj1 (sentinel_mapping [[1500; -32768]; [-1000; 271]]%Z 0 1)). reflexivity.
  - apply (proj2 (sentinel_mapping [[1500; -32768]; [-1000; 271]]%Z 1 0)). reflexivity.
Defined.

(** C5, as amended.  For every cell of a grid of int16 values whose raw
    value is not a sentinel (-32768 or -1000), a raw value of at most -500
    (-5 degrees or less) is given index 2 and a raw value of at least 3000
    (+30 degrees or more) is given index 255. *)
Theorem clamp_boundary (na : grid) (r c : nat) (raw : Z) :
  cell na r c = Some raw ->
  in_int16 raw = true ->
  raw <> (-32768)%Z -> raw <> (-1000)%Z ->
  ((raw <= -500)%Z -> cell (colour_map na) r c = Some 2%Z) /\
  ((3000 <= raw)%Z -> cell (colour_map na) r c = Some 255%Z).
Proof.
  intros Hcell Hin Hland Hice.
  destruct (cell_steps_int16 raw Hin) as [Heq _].
  pose proof (all_int16_spec _ clamp_checked raw Hin) as H. cbv beta in H.
  apply andb_prop in H as [Hlo Hhi].
  rewrite colour_map_cell, Hcell. cbn [option_map].
  rewrite Heq, palette_index_gradient by assumption.
  split; intros Hraw.
  - apply Z.leb_le in Hraw. rewrite Hraw in Hlo. apply Z.eqb_eq in Hlo. now rewrite Hlo.
  - apply Z.leb_le in Hraw. rewrite Hraw in Hhi. apply Z.eqb_eq in Hhi. now rewrite Hhi.
Qed.

Lemma clamp_boundary_witness :
  cell (colour_map [[-501; 3000]]%Z) 0 0 = Some 2%Z /\
  cell (colour_map [[-501; 3000]]%Z) 0 1 = Some 255%Z.
Proof.
  split.
  - apply (proj1 (clamp_boundary [[-501; 3000]]%Z 0 0 (-501)%Z
                                 eq_refl eq_refl ltac:(lia) ltac:(lia))). lia.
  - apply (proj2 (clamp_boundary [[-501; 3000]]%Z 0 1 3000%Z
                                 eq_refl eq_refl ltac:(lia) ltac:(lia))). lia.
Defined.

(** C5 as it was stated fails on the sentinels: -1000 and -32768 are raw
    values of at most -500, and their cells are given index 1 and index 0. *)
Lemma clamp_boundary_sentinel_counterexample :
  (-1000 <= -500)%Z /\ (-32768 <= -500)%Z /\
  cell [[-1000; -32768]]%Z 0 0 = Some (-1000)%Z /\
  cell [[-1000; -32768]]%Z 0 1 = Some (-32768)%Z /\
  cell (colour_map [[-1000; -32768]]%Z) 0 0 = Some 1%Z /\
  cell (colour_map [[-1000; -32768]]%Z) 0 1 = Some 0%Z /\
  cell (colour_map [[-1000; -32768]]%Z) 0 0 <> Some 2%Z /\
  cell (colour_map [[-1000; -32768]]%Z) 0 1 <> Some 2%Z.
Proof.
  repeat split; try lia; try reflexivity; vm_compute; discriminate.
Qed.

(** C6.  The gradient is monotone: for two cells of grids of int16 values
    whose raw values a <= b are not sentinels, the index given to a is at
    most the index given to b. *)
Theorem gradient_monotonicity (na nb : grid) (ra ca rb cb : nat) (a b : Z) :
  cell na ra ca = Some a -> cell nb rb cb = Some b ->
  in_int16 a = true -> in_int16 b = true ->
  a <> (-32768)%Z -> a <> (-1000)%Z -> b <> (-32768)%Z -> b <> (-1000)%Z ->
  (a <= b)%Z ->
  exists ia ib,
    cell (colour_map na) ra ca = Some ia /\
    cell (colour_map nb) rb cb = Some ib /\
    (ia <= ib)%Z.
Proof.
  intros Ha Hb Hina Hinb Ha1 Ha2 Hb1 Hb2 Hab.
  exists (spec_gradient_index a), (spec_gradient_index b).
  destruct (cell_steps_int16 a Hina) as [Heqa _].
  destruct (cell_steps_int16 b Hinb) as [Heqb _].
  rewrite !colour_map_cell, Ha, Hb. cbn [option_map].
  rewrite Heqa, Heqb, !palette_index_gradient by assumption.
  repeat split. now apply gradient_monotone.
Qed.

Lemma gradient_monotonicity_witness :
  exists ia ib,
    cell (colour_map [[1500; -32768]; [-1000; 271]]%Z) 1 1 = Some ia /\
    cell (colour_map [[1500; -32768]; [-1000; 271]]%Z) 0 0 = Some ib /\
    (ia <= ib)%Z.
Proof.
  apply (gradient_monotonicity [[1500; -32768]; [-1000; 271]]%Z
                               [[1500; -32768]; [-1000; 271]]%Z 1 1 0 0 271%Z 1500%Z);
    try reflexivity; lia.
Defined.

(** End to end: every cell of a parsed grid is given the index of the
    per-cell rule, and that index is a palette index. *)
Corollary rendered_cell (content : text) (st : pstate) (M : text) (na : grid)
          (r c : nat) (raw : Z) :
  parse content = Some (Ok st) -> In (M, na) (months st) ->
  cell na r c = Some raw ->
  cell (colour_map na) r c = Some (spec_palette_index raw) /\
  (0 <= spec_palette_index raw <= 255)%Z.
Proof.
  intros Hparse Hin Hcell.
  pose proof (parsed_cells_int16 content st Hparse M na r c raw Hin Hcell) as Hraw.
  destruct (cell_steps_int16 raw Hraw) as [Heq Hrange].
  split.
  - rewrite colour_map_cell, Hcell. cbn [option_map]. now rewrite Heq.
  - unfold spec_palette_index.
    destruct (raw =? -32768)%Z; [lia|]. destruct (raw =? -1000)%Z; lia.
Qed.

(** ** The palette *)

Lemma palette_gradient_checked :
  forallb (fun e => match palette_entry e with
                    | Some (r, g, b) =>
                        (r =? Z.of_nat e)%Z && (g =? 0)%Z && (b =? 255 - Z.of_nat e)%Z
                    | None => false
                    end) (seq 2 254) = true.
Proof. by_evaluation. Qed.

(** C4.  The palette is a constant: a flat table of 256 RGB triples (768
    values) whose entry 0 is (0,0,0), whose entry 1 is (255,255,255) and whose
    entry e is (e, 0, 255-e) for every e in 2..255. *)
Theorem palette_table :
  length palette = 3 * 256 /\
  palette_entry 0 = Some (0, 0, 0)%Z /\
  palette_entry 1 = Some (255, 255, 255)%Z /\
  forall e, 2 <= e <= 255 ->
            palette_entry e = Some (Z.of_nat e, 0%Z, (255 - Z.of_nat e)%Z).
Proof.
  split; [by_evaluation|].
  split; [by_evaluation|].
  split; [by_evaluation|].
  intros e He.
  pose proof palette_gradient_checked as H. rewrite forallb_forall in H.
  specialize (H e). cbv beta in H.
  destruct (palette_entry e) as [[[r g] b]|].
  - assert (Hin : In e (seq 2 254)) by (apply in_seq; lia).
    apply H in Hin. apply andb_prop in Hin as [Hrg Hb]. apply andb_prop in Hrg as [Hr Hg].
    apply Z.eqb_eq in Hr, Hg, Hb. now subst.
  - assert (Hin : In e (seq 2 254)) by (apply in_seq; lia).
    apply H in Hin. discriminate.
Qed.

Lemma palette_table_witness : palette_entry 100 = Some (100, 0, 155)%Z.
Proof.
  apply (proj2 (proj2 (proj2 palette_table)) 100). lia.
Defined.

(** ** Output names *)

Lemma store_field_keeps_Y (line : text) (st st' : pstate) (c : nat) :
  store_field line st c = Ok st' -> var_Y st' = var_Y st.
Proof.
  unfold store_field. intros H.
  destruct (py_int _); cbn [or_raise bind] in H; [|discriminate].
  destruct (var_M st); cbn [or_raise bind] in H; [|discriminate].
  destruct (dict_get _ _); cbn [or_raise bind] in H; [|discriminate].
  destruct (var_r st); cbn [or_raise bind] in H; [|discriminate].
  destruct (grid_set _ _ _ _); cbn [or_raise bind] in H; [|discriminate].
  injection H as <-. now destruct st.
Qed.

Lemma store_fields_keep_Y (line : text) (cs : list nat) :
  forall st st', for_each (store_field line) cs st = Ok st' -> var_Y st' = var_Y st.
Proof.
  induction cs as [|c cs IH]; intros st st' H; cbn [for_each] in H.
  - now injection H as <-.
  - destruct (store_field line st c) as [st1|] eqn:E; cbn [bind] in H; [|discriminate].
    rewrite (IH _ _ H). now apply store_field_keeps_Y in E.
Qed.

(** A data line does not touch [Y]. *)
Lemma data_line_keeps_Y (line : text) (st st' : pstate) :
  (length line <? 50) = false -> process_line st line = Ok st' -> var_Y st' = var_Y st.
Proof.
  unfold process_line. intros -> H.
  destruct (for_each _ _ st) as [st1|] eqn:E; cbn [bind] in H; [|discriminate].
  destruct (var_r st1); cbn [or_raise bind] in H; [|discriminate].
  injection H as <-. cbn [var_Y]. now apply store_fields_keep_Y in E.
Qed.


(** A header line binds [Y] to its third token. *)
Lemma header_binds_Y (h : text) (st st' : pstate) :
  (length h <? 50) = true -> process_line st h = Ok st' ->
  exists D M Y more, py_split h = D :: M :: Y :: more /\ var_Y st' = Some Y.
Proof.
  unfold process_line. intros -> H.
  destruct (py_split h) as [|D [|M [|Y more]]]; try discriminate.
  injection H as <-. now exists D, M, Y, more.
Qed.


(** The loop writes the two files of every entry, in order, up to the first
    write that raises. *)
Lemma render_loop_files (fs : filesystem) (y : text) (items : dict grid) :
  forall log,
    render_loop fs (Some y) items log
    = write_files fs (flat_map (period_files y) items) log.
Proof.
  induction items as [|[month na] items IH]; intros log; [reflexivity|].
  cbn [render_loop render_month flat_map period_files app write_files fst snd].
  unfold write.
  destruct (fs ((txt "01-" ++ pad_month month ++ txt "-" ++ y) ++ txt "-raw.tif"));
    [reflexivity|].
  destruct (fs ((txt "01-" ++ pad_month month ++ txt "-" ++ y) ++ txt "-RGB.png"));
    [reflexivity|].
  apply IH.
Qed.

Lemma write_files_accepted (fs : filesystem) (files : list (text * image)) :
  accepted fs files ->
  forall log, write_files fs files log = (log ++ files, Ok tt).
Proof.
  induction 1 as [|[name img] files Hname Hfiles IH]; intros log; cbn [write_files].
  - now rewrite app_nil_r.
  - cbn [fst] in Hname. rewrite Hname, IH, <- app_assoc. reflexivity.
Qed.

(** What has been written when the writes end: the files before the first
    one that is refused, and all of them when the run ends normally. *)
Lemma write_files_outcome (fs : filesystem) (files : list (text * image)) :
  forall log written out,
    write_files fs files log = (written, out) ->
    exists done rest,
      files = done ++ rest /\ written = log ++ done /\ accepted fs done /\
      match out with
      | Ok _ => rest = []
      | Raise e => exists name img rest', rest = (name, img) :: rest' /\ fs name = Some e
      end.
Proof.
  induction files as [|[name img] files IH]; intros log written out H; cbn [write_files] in H.
  - injection H as <- <-. exists [], []. rewrite (app_nil_r log).
    split; [reflexivity|]. split; [reflexivity|]. split; [constructor|reflexivity].
  - destruct (fs name) as [e|] eqn:Hname.
    + injection H as <- <-. exists [], ((name, img) :: files). rewrite (app_nil_r log).
      split; [reflexivity|]. split; [reflexivity|]. split; [constructor|].
      now exists name, img, files.
    + destruct (IH _ _ _ H) as (done & rest & Hfiles & Hwritten & Hdone & Hout).
      exists ((name, img) :: done), rest.
      split; [cbn [app]; now rewrite Hfiles|].
      split; [now rewrite Hwritten, <- app_assoc|].
      split; [constructor; [exact Hname|exact Hdone]|exact Hout].
Qed.

(** The script after a successful parse that has bound [Y]. *)
Lemma main_writes (fs : filesystem) (content : text) (st : pstate) (y : text) :
  parse content = Some (Ok st) ->
  var_Y st = Some y ->
  main fs content = Some (write_files fs (flat_map (period_files y) (months st)) []).
Proof.
  intros Hparse HY. now rewrite (main_ok fs content st Hparse), HY, render_loop_files.
Qed.


Lemma text_eqb_01_02 : text_eqb (txt "01") (txt "02") = false.
Proof. reflexivity. Qed.

Lemma two_year_parse : parse two_year_file = Some (Ok two_year_state).
Proof.
  unfold two_year_state.
  rewrite (parse_two_periods two_year_file (header_line "01" "1870")
                             (header_line "02" "1871") [] []
                             (txt "1") (txt "01") (txt "1870")
                             (txt "1") (txt "02") (txt "1871") [] []).
  - cbn [dict_set]. rewrite text_eqb_01_02. reflexivity.
  - by_evaluation.
  - by_evaluation.
  - by_evaluation.
  - by_evaluation.
  - by_evaluation.
  - cbn [length]. lia.
  - cbn [length]. lia.
  - reflexivity.
  - reflexivity.
Qed.

Lemma slash_parse : parse slash_file = Some (Ok slash_state).
Proof.
  rewrite parse_lines.
  assert (Hlines : lines_of slash_file = [header_line "a/b" "1870"]) by by_evaluation.
  rewrite Hlines. reflexivity.
Qed.

(** The period of 1870 is named with 1871. *)
Example two_year_names :
  main accept_all two_year_file
  = Some ([(txt "01-01-1871-raw.tif", Tiff zeros);
           (txt "01-01-1871-RGB.png", Png (colour_map zeros) palette);
           (txt "01-02-1871-raw.tif", Tiff zeros);
           (txt "01-02-1871-RGB.png", Png (colour_map zeros) palette)], Ok tt).
Proof.
  rewrite (main_ok accept_all _ _ two_year_parse).
  cbn [two_year_state months var_Y render_loop render_month write accept_all app].
  reflexivity.
Qed.

(** A month token with a slash: the input is read without error, the first
    write raises in a directory without subdirectories, and no file is
    written. *)
Example slash_month_writes_nothing :
  main flat_directory slash_file = Some ([], Raise OSError).
Proof.
  rewrite (main_ok flat_directory _ _ slash_parse).
  cbn [slash_state months var_Y render_loop render_month]. reflexivity.
Qed.


Lemma raw_rgb_names_differ (DMY : text) :
  text_eqb (DMY ++ txt "-raw.tif") (DMY ++ txt "-RGB.png") = false.
Proof.
  apply text_eqb_neq. intros H. apply app_inv_head in H. discriminate.
Qed.

(** C10.  Month keys are the header tokens as they stand.  Two headers of one
    file whose month tokens differ, but are the same once padded with a zero
    to two characters (such as 1 and 01), give two entries of the parsed
    mapping; the rendering loop then gives both periods the same two file
    names.  The four writes go to these two names, up to the first one the
    file system refuses; when it takes the two names, all four are made, and
    each of the two files then holds what was written for the period
    rendered last. *)
Theorem padded_months_collide
        (fs : filesystem) (content h1 h2 : text) (rows1 rows2 : list text)
        (D1 M1 Y1 D2 M2 Y2 : text) (more1 more2 : list text) :
  lines_of content = h1 :: rows1 ++ h2 :: rows2 ->
  (length h1 <? 50) = true -> py_split h1 = D1 :: M1 :: Y1 :: more1 ->
  (length h2 <? 50) = true -> py_split h2 = D2 :: M2 :: Y2 :: more2 ->
  length rows1 <= 180 -> length rows2 <= 180 ->
  forallb data_ok rows1 = true -> forallb data_ok rows2 = true ->
  M1 <> M2 -> pad_month M1 = pad_month M2 ->
  exists st log,
    parse content = Some (Ok st) /\
    months st = [(M1, block_grid rows1); (M2, block_grid rows2)] /\
    log = [((txt "01-" ++ pad_month M2 ++ txt "-" ++ Y2) ++ txt "-raw.tif",
            Tiff (block_grid rows1));
           ((txt "01-" ++ pad_month M2 ++ txt "-" ++ Y2) ++ txt "-RGB.png",
            Png (colour_map (block_grid rows1)) palette);
           ((txt "01-" ++ pad_month M2 ++ txt "-" ++ Y2) ++ txt "-raw.tif",
            Tiff (block_grid rows2));
           ((txt "01-" ++ pad_month M2 ++ txt "-" ++ Y2) ++ txt "-RGB.png",
            Png (colour_map (block_grid rows2)) palette)] /\
    main fs content = Some (write_files fs log []) /\
    (fs ((txt "01-" ++ pad_month M2 ++ txt "-" ++ Y2) ++ txt "-raw.tif") = None ->
     fs ((txt "01-" ++ pad_month M2 ++ txt "-" ++ Y2) ++ txt "-RGB.png") = None ->
     main fs content = Some (log, Ok tt)) /\
    final_files log
    = [((txt "01-" ++ pad_month M2 ++ txt "-" ++ Y2) ++ txt "-raw.tif",
        Tiff (block_grid rows2));
       ((txt "01-" ++ pad_month M2 ++ txt "-" ++ Y2) ++ txt "-RGB.png",
        Png (colour_map (block_grid rows2)) palette)].
Proof.
  intros Hlines Hh1 Hs1 Hh2 Hs2 Hl1 Hl2 Hok1 Hok2 Hne Hpad.
  pose proof (parse_two_periods content h1 h2 rows1 rows2 D1 M1 Y1 D2 M2 Y2 more1 more2
                                Hlines Hh1 Hs1 Hh2 Hs2 Hl1 Hl2 Hok1 Hok2) as Hparse.
  cbn [dict_set] in Hparse. rewrite (text_eqb_neq _ _ Hne) in Hparse.
  eexists. eexists.
  split; [exact Hparse|]. split; [reflexivity|]. split; [reflexivity|].
  assert (Hmain : main fs content
                  = Some (write_files fs
                            (flat_map (period_files Y2)
                                      [(M1, block_grid rows1); (M2, block_grid rows2)]) []))
    by exact (main_writes fs content _ Y2 Hparse eq_refl).
  cbn [flat_map period_files app fst snd] in Hmain. rewrite Hpad in Hmain.
  split; [exact Hmain|]. split.
  - intros Hraw Hrgb. rewrite Hmain. cbn [write_files]. rewrite Hraw, Hrgb. reflexivity.
  - unfold final_files. cbn [fold_left fst snd dict_set].
    rewrite raw_rgb_names_differ. cbn [dict_set].
    rewrite text_eqb_refl. cbn [dict_set].
    rewrite raw_rgb_names_differ, text_eqb_refl. reflexivity.
Qed.

Lemma padded_months_collide_witness :
  exists st log,
    parse padded_file = Some (Ok st) /\
    months st = [(txt "1", block_grid [data_line "  1234" "   271"]);
                 (txt "01", block_grid [data_line "   -55" "   271"])] /\
    log = [((txt "01-" ++ pad_month (txt "01") ++ txt "-" ++ txt "1870") ++ txt "-raw.tif",
            Tiff (block_grid [data_line "  1234" "   271"]));
           ((txt "01-" ++ pad_month (txt "01") ++ txt "-" ++ txt "1870") ++ txt "-RGB.png",
            Png (colour_map (block_grid [data_line "  1234" "   271"])) palette);
           ((txt "01-" ++ pad_month (txt "01") ++ txt "-" ++ txt "1870") ++ txt "-raw.tif",
            Tiff (block_grid [data_line "   -55" "   271"]));
           ((txt "01-" ++ pad_month (txt "01") ++ txt "-" ++ txt "1870") ++ txt "-RGB.png",
            Png (colour_map (block_grid [data_line "   -55" "   271"])) palette)] /\
    main accept_all padded_file = Some (write_files accept_all log []) /\
    (accept_all ((txt "01-" ++ pad_month (txt "01") ++ txt "-" ++ txt "1870")
                 ++ txt "-raw.tif") = None ->
     accept_all ((txt "01-" ++ pad_month (txt "01") ++ txt "-" ++ txt "1870")
                 ++ txt "-RGB.png") = None ->
     main accept_all padded_file = Some (log, Ok tt)) /\
    final_files log
    = [((txt "01-" ++ pad_month (txt "01") ++ txt "-" ++ txt "1870") ++ txt "-raw.tif",
        Tiff (block_grid [data_line "   -55" "   271"]));
       ((txt "01-" ++ pad_month (txt "01") ++ txt "-" ++ txt "1870") ++ txt "-RGB.png",
        Png (colour_map (block_grid [data_line "   -55" "   271"])) palette)].
Proof.
  apply (padded_months_collide
           accept_all
           padded_file (header_line "1" "1870") (header_line "01" "1870")
           [data_line "  1234" "   271"] [data_line "   -55" "   271"]
           (txt "1") (txt "1") (txt "1870") (txt "1") (txt "01") (txt "1870") [] []).
  - by_evaluation.
  - by_evaluation.
  - by_evaluation.
  - by_evaluation.
  - by_evaluation.
  - vm_compute; lia.
  - vm_compute; lia.
  - by_evaluation.
  - by_evaluation.
  - discriminate.
  - by_evaluation.
Defined.

(** * Further properties of the script *)

(** ** Well-formed files of any number of periods *)

Lemma header_ok_tokens (h : text) :
  header_ok h = true ->
  (length h <? 50) = true /\
  exists more,
    py_split h = header_token h 0 :: header_token h 1 :: header_token h 2 :: more.
Proof.
  unfold header_ok, header_token. intros H. apply andb_prop in H as [Hlen Htok].
  split; [exact Hlen|].
  destruct (py_split h) as [|D [|M [|Y more]]]; cbn [length] in Htok;
    try discriminate.
  now exists more.
Qed.

Lemma run_period (st : pstate) (p : period) :
  period_ok p = true -> run_lines st (period_lines p) = Ok (after_period st p).
Proof.
  destruct p as [h rows]. unfold period_ok, period_lines, after_period. cbn [fst snd].
  intros H. apply andb_prop in H as [H Hok]. apply andb_prop in H as [Hh Hlen].
  apply Nat.leb_le in Hlen.
  destruct (header_ok_tokens h Hh) as (Hshort & more & Hsplit).
  exact (run_block st h rows _ _ _ more Hshort Hsplit Hok Hlen).
Qed.

Lemma run_periods (ps : list period) :
  forallb period_ok ps = true ->
  forall st, run_lines st (flat_map period_lines ps) = Ok (fold_left after_period ps st).
Proof.
  induction ps as [|p ps IH]; intros Hok st; [reflexivity|].
  cbn [forallb] in Hok. apply andb_prop in Hok as [Hp Hps].
  cbn [flat_map fold_left]. rewrite run_lines_app, (run_period st p Hp). cbn [bind].
  now apply IH.
Qed.

Lemma dict_set_fresh {V} (d : dict V) (k : text) (v : V) :
  ~ In k (keys d) -> dict_set d k v = d ++ [(k, v)].
Proof.
  unfold keys. induction d as [|[k' v'] d IH]; cbn [dict_set map fst In app]; intros Hk.
  - reflexivity.
  - rewrite text_eqb_neq by (intros ->; apply Hk; now left).
    rewrite IH by (intros Hin; apply Hk; now right). reflexivity.
Qed.

Lemma months_fold_after (ps : list period) :
  forall st,
    months (fold_left after_period ps st)
    = fold_left (fun d p => dict_set d (fst (period_entry p)) (snd (period_entry p)))
                ps (months st).
Proof.
  induction ps as [|p ps IH]; intros st; [reflexivity|].
  cbn [fold_left]. now rewrite IH.
Qed.

Lemma fold_dict_set_distinct (ps : list period) :
  forall d : dict grid,
    NoDup (keys d ++ map (fun p => fst (period_entry p)) ps) ->
    fold_left (fun d p => dict_set d (fst (period_entry p)) (snd (period_entry p))) ps d
    = d ++ map period_entry ps.
Proof.
  induction ps as [|p ps IH]; intros d Hnd; cbn [fold_left map].
  - now rewrite app_nil_r.
  - cbn [map] in Hnd.
    assert (Hfresh : ~ In (fst (period_entry p)) (keys d)).
    { intros Hin. apply NoDup_remove_2 in Hnd. apply Hnd. apply in_or_app. now left. }
    rewrite (dict_set_fresh d _ _ Hfresh), IH.
    + rewrite <- app_assoc. cbn [app]. now destruct (period_entry p).
    + unfold keys in *. rewrite map_app. cbn [map fst].
      rewrite <- app_assoc. cbn [app].
      replace (fst (let (a, b) := period_entry p in (a, b))) with (fst (period_entry p))
        by now destruct (period_entry p).
      exact Hnd.
Qed.

(** X1.  A file made of periods, each a header line of at least three tokens
    followed by at most 180 data lines of 360 integer fields, is parsed
    without error; the variables of the script end as the periods leave them
    one after the other: every period stores its grid under its month token
    (a month seen before keeps its place in the mapping and loses its earlier
    grid), and D, M, Y and the row cursor are those of the last period.  When
    the month tokens are pairwise different the mapping is the list of the
    periods' entries in the order of the file. *)
Theorem well_formed_file_parses (content : text) (ps : list period) :
  lines_of content = flat_map period_lines ps ->
  forallb period_ok ps = true ->
  parse content = Some (Ok (fold_left after_period ps init_state)) /\
  (NoDup (map (fun p => header_token (fst p) 1) ps) ->
   months (fold_left after_period ps init_state) = map period_entry ps).
Proof.
  intros Hlines Hok. split.
  - now rewrite parse_lines, Hlines, (run_periods ps Hok).
  - intros Hnd. rewrite months_fold_after.
    change (months init_state) with (@nil (text * grid)).
    now rewrite (fold_dict_set_distinct ps [] Hnd).
Qed.

Lemma three_period_lines :
  lines_of three_period_file = flat_map period_lines three_periods.
Proof. apply lines_of_concat. by_evaluation. Qed.

Lemma three_periods_ok : forallb period_ok three_periods = true.
Proof. by_evaluation. Qed.

Lemma well_formed_file_parses_witness :
  (parse three_period_file = Some (Ok (fold_left after_period three_periods init_state)) /\
   (NoDup (map (fun p => header_token (fst p) 1) three_periods) ->
    months (fold_left after_period three_periods init_state)
    = map period_entry three_periods)) /\
  months (fold_left after_period (firstn 2 three_periods) init_state)
  = map period_entry (firstn 2 three_periods).
Proof.
  split.
  - apply (well_formed_file_parses three_period_file three_periods).
    + exact three_period_lines.
    + exact three_periods_ok.
  - apply (well_formed_file_parses
             (concat (flat_map period_lines (firstn 2 three_periods)))
             (firstn 2 three_periods)).
    + apply lines_of_concat. by_evaluation.
    + by_evaluation.
    + cbn [firstn three_periods map fst].
      apply NoDup_cons; [|apply NoDup_cons; [intros []|apply NoDup_nil]].
      cbn [In]. intros [H|[]]. vm_compute in H. discriminate.
Defined.


(** ** Errors of the reading loop *)

Lemma raised_everywhere (fs : filesystem) (content : text) (line : text) :
  In line (lines_of content) ->
  (forall st, is_ok (process_line st line) = false) ->
  exists e, parse content = Some (Raise e) /\ main fs content = Some ([], Raise e).
Proof.
  intros Hin Hbad.
  pose proof (run_lines_raises init_state (lines_of content) line Hin Hbad) as H.
  apply not_ok_raises in H as [e He]. exists e.
  assert (Hp : parse content = Some (Raise e)) by now rewrite parse_lines, He.
  split; [exact Hp|now apply main_raises].
Qed.

(** X2.  A line of fewer than 50 characters that has fewer than three
    tokens, an empty line among them, cannot be unpacked into day, month and
    year: an input with such a line anywhere makes the script raise, and
    nothing is written, whatever the file system. *)
Theorem short_header_raises (fs : filesystem) (content line : text) :
  In line (lines_of content) ->
  length line < 50 ->
  length (py_split line) < 3 ->
  exists e, parse content = Some (Raise e) /\ main fs content = Some ([], Raise e).
Proof.
  intros Hin Hshort Htok. apply (raised_everywhere fs content line Hin).
  intros st. unfold process_line.
  apply Nat.ltb_lt in Hshort. rewrite Hshort.
  destruct (py_split line) as [|D [|M [|Y more]]]; try reflexivity.
  cbn [length] in Htok. lia.
Qed.

Lemma short_header_raises_witness :
  exists e, parse blank_line_file = Some (Raise e) /\
            main accept_all blank_line_file = Some ([], Raise e).
Proof.
  apply (short_header_raises accept_all blank_line_file nl).
  - vm_compute. tauto.
  - vm_compute. lia.
  - vm_compute. lia.
Defined.

(** The error of the empty line after a good period. *)
Example blank_line_error : parse blank_line_file = Some (Raise ValueError).
Proof. by_evaluation. Qed.

(** X3.  A data line (50 characters or more) one of whose 360 field slots
    holds no integer literal makes the script raise wherever it stands in the
    input, and nothing is written, whatever the file system. *)
Theorem bad_field_raises (fs : filesystem) (content line : text) (c : nat) :
  In line (lines_of content) ->
  50 <= length line ->
  c < 360 ->
  field line c = None ->
  exists e, parse content = Some (Raise e) /\ main fs content = Some ([], Raise e).
Proof.
  intros Hin Hlong Hc Hf. apply (raised_everywhere fs content line Hin).
  intros st. apply (process_line_bad_field line st c); [|exact Hc|exact Hf].
  now apply Nat.ltb_ge.
Qed.

Lemma bad_field_raises_witness :
  exists e, parse bad_field_file = Some (Raise e) /\
            main accept_all bad_field_file = Some ([], Raise e).
Proof.
  apply (bad_field_raises accept_all bad_field_file (data_line "  12a " "   271") 0).
  - vm_compute. tauto.
  - vm_compute. lia.
  - lia.
  - by_evaluation.
Defined.

Lemma grid_set_below (na : grid) (r c : nat) (v : Z) :
  length na <= r -> grid_set na r c v = None.
Proof.
  intros H. unfold grid_set. apply nth_error_None in H. now rewrite H.
Qed.

(** A data line read when the row cursor has left the array. *)
Lemma process_line_row_overflow (line : text) (st : pstate) (M : text) (na : grid) (r : nat) :
  data_ok line = true ->
  var_M st = Some M -> dict_get (months st) M = Some na ->
  var_r st = Some r -> length na <= r ->
  process_line st line = Raise IndexError.
Proof.
  intros Hok HM Hget Hr Hlen. unfold process_line.
  rewrite (data_ok_long _ Hok).
  change (seq 0 COLS) with (0 :: seq 1 359). cbn [for_each].
  unfold store_field at 1. fold (field line 0).
  assert (Hf : field line 0 <> None) by (apply data_ok_field; [assumption|unfold COLS; lia]).
  destruct (field line 0) as [v|]; [|congruence].
  cbn [or_raise bind]. rewrite HM. cbn [or_raise bind].
  rewrite Hget. cbn [or_raise bind]. rewrite Hr. cbn [or_raise bind].
  rewrite (grid_set_below na r 0 (wrap16 v) Hlen). reflexivity.
Qed.

(** X4.  After well-formed periods, a header followed by 181 or more good
    data lines raises IndexError at the 181st: the row cursor has left the
    180 rows of the array.  Whatever follows in the file is not read, and
    nothing is written, whatever the file system. *)
Theorem too_many_rows_raises
        (fs : filesystem) (content : text) (ps : list period) (h : text)
        (rows rest : list text) :
  lines_of content = flat_map period_lines ps ++ h :: rows ++ rest ->
  forallb period_ok ps = true ->
  header_ok h = true ->
  length rows = 181 ->
  forallb data_ok rows = true ->
  parse content = Some (Raise IndexError) /\
  main fs content = Some ([], Raise IndexError).
Proof.
  intros Hlines Hps Hh Hlen Hok.
  assert (Hp : parse content = Some (Raise IndexError)); [|split; [exact Hp|now apply main_raises]].
  rewrite parse_lines, Hlines, run_lines_app, (run_periods ps Hps). cbn [bind].
  set (st := fold_left after_period ps init_state).
  rewrite <- (firstn_skipn 180 rows) in Hok |- *.
  rewrite forallb_app in Hok. apply andb_prop in Hok as [Hfirst Hlast].
  assert (Hlen1 : length (firstn 180 rows) = 180) by (rewrite length_firstn; lia).
  destruct (skipn 180 rows) as [|line tail] eqn:Hskip.
  { apply (f_equal (@length text)) in Hskip. rewrite length_skipn in Hskip.
    cbn [length] in Hskip. lia. }
  rewrite <- app_assoc.
  change (h :: firstn 180 rows ++ (line :: tail) ++ rest)
    with (period_lines (h, firstn 180 rows) ++ (line :: tail ++ rest)).
  rewrite run_lines_app.
  rewrite (run_period st (h, firstn 180 rows)).
  - cbn [bind]. unfold run_lines. cbn [for_each].
    cbn [forallb] in Hlast. apply andb_prop in Hlast as [Hline _].
    rewrite (process_line_row_overflow line _ (header_token h 1)
               (block_grid (firstn 180 rows)) 180 Hline); try reflexivity.
    + unfold after_period. cbn [months fst snd]. apply dict_get_set_same.
    + unfold after_period. cbn [var_r fst snd]. now rewrite Hlen1.
    + rewrite block_grid_length by (unfold ROWS; lia). unfold ROWS. lia.
  - unfold period_ok. cbn [fst snd]. rewrite Hh, Hfirst.
    assert (Hle : (length (firstn 180 rows) <=? ROWS) = true)
      by (apply Nat.leb_le; unfold ROWS; lia).
    now rewrite Hle.
Qed.

Lemma lines_of_headed (h : text) (rows : list text) :
  complete_line h = true -> forallb complete_line rows = true ->
  lines_of (concat (h :: rows)) = flat_map period_lines [] ++ h :: rows ++ [].
Proof.
  intros Hh Hrows. rewrite app_nil_r. cbn [flat_map app].
  apply lines_of_concat. cbn [forallb]. now rewrite Hh, Hrows.
Qed.

Lemma too_many_rows_raises_witness :
  parse overlong_file = Some (Raise IndexError) /\
  main accept_all overlong_file = Some ([], Raise IndexError).
Proof.
  apply (too_many_rows_raises accept_all overlong_file [] (header_line "01" "1870")
                              (repeat (data_line "   271" "   271") 181) []).
  - exact (lines_of_headed _ _ (proj1 header_line_complete)
                           (forallb_repeat complete_line _ 181 (proj1 common_line_ok))).
  - reflexivity.
  - by_evaluation.
  - apply repeat_length.
  - exact (forallb_repeat data_ok _ 181 (proj1 (proj2 common_line_ok))).
Defined.

(** X5.  A period cut short is accepted without an error: a file of one
    header and fewer than 180 good data lines parses, the rows of the lines
    that are there hold their fields, and every row below them holds zeros. *)
Theorem incomplete_period_keeps_zeros
        (content h : text) (rows : list text) (D M Y : text) (more : list text) :
  lines_of content = h :: rows ->
  (length h <? 50) = true ->
  py_split h = D :: M :: Y :: more ->
  length rows < 180 ->
  forallb data_ok rows = true ->
  exists st na,
    parse content = Some (Ok st) /\
    months st = [(M, na)] /\ var_r st = Some (length rows) /\
    (forall r c line v,
        nth_error rows r = Some line -> c < 360 -> field line c = Some v ->
        cell na r c = Some (wrap16 v)) /\
    (forall r c, length rows <= r < 180 -> c < 360 -> cell na r c = Some 0%Z).
Proof.
  intros Hlines Hh Hsplit Hlen Hok.
  assert (Hle : length rows <= ROWS) by (unfold ROWS; lia).
  exists (mk_pstate [(M, block_grid rows)] (Some D) (Some M) (Some Y) (Some (length rows))).
  exists (block_grid rows).
  split; [exact (parse_one_period content h rows D M Y more Hlines Hh Hsplit Hle Hok)|].
  split; [reflexivity|]. split; [reflexivity|]. split.
  - intros r c line v. apply block_grid_cell.
  - intros r c Hr Hc. unfold cell, block_grid.
    rewrite nth_error_app2 by (rewrite length_map; lia).
    rewrite length_map, nth_error_skipn.
    replace (length rows + (r - length rows)) with r by lia.
    unfold zeros. rewrite nth_error_repeat by (unfold ROWS; lia).
    unfold zero_row. now rewrite nth_error_repeat by (unfold COLS; lia).
Qed.

Lemma incomplete_period_keeps_zeros_witness :
  exists st na,
    parse (concat [header_line "01" "1870"; data_line "  1234" "   271"]) = Some (Ok st) /\
    months st = [(txt "01", na)] /\
    var_r st = Some (length [data_line "  1234" "   271"]) /\
    (forall r c line v,
        nth_error [data_line "  1234" "   271"] r = Some line -> c < 360 ->
        field line c = Some v -> cell na r c = Some (wrap16 v)) /\
    (forall r c, length [data_line "  1234" "   271"] <= r < 180 -> c < 360 ->
                 cell na r c = Some 0%Z).
Proof.
  apply (incomplete_period_keeps_zeros
           (concat [header_line "01" "1870"; data_line "  1234" "   271"])
           (header_line "01" "1870") [data_line "  1234" "   271"]
           (txt "1") (txt "01") (txt "1870") []).
  - apply lines_of_concat. by_evaluation.
  - by_evaluation.
  - by_evaluation.
  - cbn [length]. lia.
  - by_evaluation.
Defined.

(** ** The shape of the arrays *)

Lemma list_set_length {A} (l l' : list A) (i : nat) (x : A) :
  list_set l i x = Some l' -> length l' = length l.
Proof.
  revert l' i; induction l as [|a l IH]; intros l' i H; [discriminate|].
  destruct i as [|i]; cbn [list_set] in H.
  - now injection H as <-.
  - destruct (list_set l i x) as [t|] eqn:E; cbn [option_map] in H; [|discriminate].
    injection H as <-. cbn [length]. f_equal. exact (IH t i E).
Qed.

Lemma list_set_Forall {A} (P : A -> Prop) (l l' : list A) (i : nat) (x : A) :
  Forall P l -> P x -> list_set l i x = Some l' -> Forall P l'.
Proof.
  intros Hl Hx Hset. apply Forall_forall. intros y Hy.
  apply In_nth_error in Hy as [j Hj].
  destruct (list_set_nth l l' i j x y Hset Hj) as [[_ ->]|Hold]; [exact Hx|].
  rewrite Forall_forall in Hl. apply Hl. exact (nth_error_In _ _ Hold).
Qed.

Lemma grid_set_shape (na na' : grid) (r c : nat) (v : Z) (rows cols : nat) :
  grid_set na r c v = Some na' ->
  length na = rows /\ Forall (fun row => length row = cols) na ->
  length na' = rows /\ Forall (fun row => length row = cols) na'.
Proof.
  unfold grid_set. intros Hset [Hlen Hrows].
  destruct (nth_error na r) as [row|] eqn:Hrow; [|discriminate].
  destruct (list_set row c v) as [row'|] eqn:Hrow'; [|discriminate].
  split.
  - now rewrite (list_set_length _ _ _ _ Hset).
  - apply (list_set_Forall _ na na' r row' Hrows); [|exact Hset].
    rewrite (list_set_length _ _ _ _ Hrow').
    rewrite Forall_forall in Hrows. apply Hrows. exact (nth_error_In _ _ Hrow).
Qed.

Lemma store_field_shaped (line : text) (st st' : pstate) (c : nat) :
  grids_shaped st -> store_field line st c = Ok st' -> grids_shaped st'.
Proof.
  unfold store_field. intros Hinv H.
  destruct (py_int _) as [v|]; cbn [or_raise bind] in H; [|discriminate].
  destruct (var_M st) as [M|]; cbn [or_raise bind] in H; [|discriminate].
  destruct (dict_get _ _) as [na|] eqn:Hget; cbn [or_raise bind] in H; [|discriminate].
  destruct (var_r st) as [r|]; cbn [or_raise bind] in H; [|discriminate].
  destruct (grid_set _ _ _ _) as [na'|] eqn:Hset; cbn [or_raise bind] in H; [|discriminate].
  injection H as <-. intros M' g Hin.
  unfold set_months in Hin. cbn [months] in Hin.
  apply dict_set_in in Hin as [->|Hin].
  - apply (grid_set_shape na na' r c (wrap16 v) 180 360 Hset).
    apply dict_get_in in Hget. exact (Hinv M na Hget).
  - exact (Hinv M' g Hin).
Qed.

Lemma process_line_shaped (st st' : pstate) (line : text) :
  grids_shaped st -> process_line st line = Ok st' -> grids_shaped st'.
Proof.
  unfold process_line. intros Hinv H.
  destruct (length line <? 50).
  - destruct (py_split line) as [|D [|M [|Y more]]]; try discriminate.
    injection H as <-. intros M' g Hin. cbn [months] in Hin.
    apply dict_set_in in Hin as [->|Hin].
    + split; [apply zeros_length|apply zeros_rows].
    + exact (Hinv M' g Hin).
  - destruct (for_each _ _ st) as [st1|] eqn:E; cbn [bind] in H; [|discriminate].
    destruct (var_r st1); cbn [or_raise bind] in H; [|discriminate].
    injection H as <-.
    assert (H1 : grids_shaped st1).
    { apply (for_each_invariant (store_field line) grids_shaped)
        with (xs := seq 0 COLS) (s := st); [|assumption|assumption].
      intros s x s'. apply store_field_shaped. }
    exact H1.
Qed.

Lemma three_period_parse :
  parse three_period_file = Some (Ok (fold_left after_period three_periods init_state)).
Proof.
  rewrite parse_lines, three_period_lines.
  now rewrite (run_periods _ three_periods_ok init_state).
Qed.

(** ** The keys of the mapping *)

Lemma keys_dict_set_cases {V} (d : dict V) (k : text) (v : V) :
  (In k (keys d) /\ keys (dict_set d k v) = keys d) \/
  (~ In k (keys d) /\ keys (dict_set d k v) = keys d ++ [k]).
Proof.
  unfold keys. induction d as [|[k' v'] d IH]; cbn [dict_set map fst In app].
  - right. split; [tauto|reflexivity].
  - destruct (text_eqb k' k) eqn:E.
    + apply text_eqb_eq in E. subst k'. left. split; [now left|reflexivity].
    + assert (Hne : k' <> k) by (intros ->; rewrite text_eqb_refl in E; discriminate).
      destruct IH as [[Hin Heq]|[Hnin Heq]].
      * left. split; [now right|]. cbn [map fst]. now rewrite Heq.
      * right. split; [intros [H|H]; [contradiction|contradiction]|].
        cbn [map fst]. now rewrite Heq.
Qed.

Lemma keys_dict_set_in {V} (d : dict V) (k K : text) (v : V) :
  In K (keys (dict_set d k v)) <-> K = k \/ In K (keys d).
Proof.
  destruct (keys_dict_set_cases d k v) as [[Hin ->]|[Hnin ->]].
  - split; [now right|]. intros [->|H]; assumption.
  - rewrite in_app_iff. cbn [In]. split.
    + intros [H|[H|[]]]; [now right|now left].
    + intros [->|H]; [right; now left|now left].
Qed.

Lemma keys_dict_set_nodup {V} (d : dict V) (k : text) (v : V) :
  NoDup (keys d) -> NoDup (keys (dict_set d k v)).
Proof.
  intros Hnd. destruct (keys_dict_set_cases d k v) as [[Hin ->]|[Hnin ->]]; [exact Hnd|].
  apply NoDup_app; [exact Hnd|repeat constructor; intros []|].
  intros x Hx [<-|[]]. contradiction.
Qed.

Lemma store_field_keys (line : text) (st st' : pstate) (c : nat) :
  store_field line st c = Ok st' -> keys (months st') = keys (months st).
Proof.
  unfold store_field. intros H.
  destruct (py_int _) as [v|]; cbn [or_raise bind] in H; [|discriminate].
  destruct (var_M st) as [M|]; cbn [or_raise bind] in H; [|discriminate].
  destruct (dict_get _ _) as [na|] eqn:Hget; cbn [or_raise bind] in H; [|discriminate].
  destruct (var_r st) as [r|]; cbn [or_raise bind] in H; [|discriminate].
  destruct (grid_set _ _ _ _) as [na'|]; cbn [or_raise bind] in H; [|discriminate].
  injection H as <-. unfold set_months. cbn [months].
  destruct (keys_dict_set_cases (months st) M na') as [[_ Heq]|[Hnin _]]; [exact Heq|].
  exfalso. apply Hnin. apply dict_get_in in Hget.
  unfold keys. apply in_map_iff. now exists (M, na).
Qed.

Lemma store_fields_keys (line : text) (cs : list nat) :
  forall st st', for_each (store_field line) cs st = Ok st' ->
                 keys (months st') = keys (months st).
Proof.
  induction cs as [|c cs IH]; intros st st' H; cbn [for_each] in H.
  - now injection H as <-.
  - destruct (store_field line st c) as [st1|] eqn:E; cbn [bind] in H; [|discriminate].
    rewrite (IH _ _ H). exact (store_field_keys line st st1 c E).
Qed.

(** What one line does to the keys. *)
Lemma process_line_keys (st st' : pstate) (line : text) :
  process_line st line = Ok st' ->
  (header_ok line = true /\
   forall K, In K (keys (months st')) <-> K = header_token line 1 \/ In K (keys (months st)))
  \/ (50 <= length line /\ keys (months st') = keys (months st)).
Proof.
  unfold process_line. intros H.
  destruct (length line <? 50) eqn:Hlen.
  - left. unfold header_ok, header_token. rewrite Hlen.
    destruct (py_split line) as [|D [|M [|Y more]]]; try discriminate.
    injection H as <-. cbn [months nth]. split; [reflexivity|].
    intros K. apply keys_dict_set_in.
  - right. apply Nat.ltb_ge in Hlen. split; [exact Hlen|].
    destruct (for_each _ _ st) as [st1|] eqn:E; cbn [bind] in H; [|discriminate].
    destruct (var_r st1); cbn [or_raise bind] in H; [|discriminate].
    injection H as <-. cbn [months]. exact (store_fields_keys line _ st st1 E).
Qed.

Lemma process_line_nodup (st st' : pstate) (line : text) :
  NoDup (keys (months st)) -> process_line st line = Ok st' ->
  NoDup (keys (months st')).
Proof.
  unfold process_line. intros Hnd H.
  destruct (length line <? 50).
  - destruct (py_split line) as [|D [|M [|Y more]]]; try discriminate.
    injection H as <-. cbn [months]. now apply keys_dict_set_nodup.
  - destruct (for_each _ _ st) as [st1|] eqn:E; cbn [bind] in H; [|discriminate].
    destruct (var_r st1); cbn [or_raise bind] in H; [|discriminate].
    injection H as <-. cbn [months]. now rewrite (store_fields_keys line _ st st1 E).
Qed.

Lemma run_lines_keys (lines : list text) :
  forall st st',
    run_lines st lines = Ok st' ->
    forall K, In K (keys (months st')) <->
              In K (keys (months st)) \/
              exists h, In h lines /\ header_ok h = true /\ header_token h 1 = K.
Proof.
  induction lines as [|l lines IH]; intros st st' H K; unfold run_lines in H;
    cbn [for_each] in H.
  - injection H as <-. split; [now left|]. intros [H|(h & [] & _)]. exact H.
  - destruct (process_line st l) as [st1|] eqn:E; cbn [bind] in H; [|discriminate].
    rewrite (IH st1 st' H K).
    destruct (process_line_keys st st1 l E) as [[Hshort Hk]|[Hlong Hk]].
    + rewrite Hk. split.
      * intros [[->|Hin]|(h & Hin & Hh & Htok)].
        -- right. exists l. split; [now left|]. now split.
        -- now left.
        -- right. exists h. split; [now right|]. now split.
      * intros [Hin|(h & [<-|Hin] & Hh & Htok)].
        -- left. now right.
        -- left. left. now symmetry.
        -- right. exists h. now split.
    + rewrite Hk. split.
      * intros [Hin|(h & Hin & Hh & Htok)]; [now left|].
        right. exists h. split; [now right|]. now split.
      * intros [Hin|(h & [<-|Hin] & Hh & Htok)]; [now left| |].
        -- unfold header_ok in Hh. apply andb_prop in Hh as [Hh _].
           apply Nat.ltb_lt in Hh. lia.
        -- right. exists h. now split.
Qed.

(** X7.  After a successful parse the keys of the mapping are exactly the
    month tokens (the second token) of the header lines of the input (the
    lines shorter than 50 characters, which then all have three tokens or
    more), each key once: a month that comes back in a later header makes
    no second entry. *)
Theorem month_keys_are_header_tokens (content : text) (st : pstate) :
  parse content = Some (Ok st) ->
  NoDup (keys (months st)) /\
  forall K, In K (keys (months st)) <->
            exists h, In h (lines_of content) /\ header_ok h = true /\
                      header_token h 1 = K.
Proof.
  intros Hparse. rewrite parse_lines in Hparse. injection Hparse as Hrun. split.
  - apply (for_each_invariant process_line (fun s => NoDup (keys (months s))))
      with (xs := lines_of content) (s := init_state).
    + intros s x s' Hs Hx. exact (process_line_nodup s s' x Hs Hx).
    + constructor.
    + exact Hrun.
  - intros K. rewrite (run_lines_keys _ _ _ Hrun K). split.
    + intros [[]|H]. exact H.
    + intros H. now right.
Qed.

Lemma month_keys_are_header_tokens_witness :
  NoDup (keys (months (fold_left after_period three_periods init_state))) /\
  forall K, In K (keys (months (fold_left after_period three_periods init_state))) <->
            exists h, In h (lines_of three_period_file) /\ header_ok h = true /\
                      header_token h 1 = K.
Proof.
  apply (month_keys_are_header_tokens three_period_file). exact three_period_parse.
Defined.

(** ** The rendering loop after a successful parse *)

Lemma period_files_length (y : text) (items : dict grid) :
  length (flat_map (period_files y) items) = 2 * length items.
Proof.
  induction items as [|item items IH]; [reflexivity|].
  cbn [flat_map period_files app length]. rewrite IH. lia.
Qed.

(** Either no header has been read and the mapping is empty, or [Y] is
    bound. *)
Lemma process_line_binds_Y (st st' : pstate) (line : text) :
  (var_M st = None /\ months st = []) \/ (exists y, var_Y st = Some y) ->
  process_line st line = Ok st' ->
  (var_M st' = None /\ months st' = []) \/ (exists y, var_Y st' = Some y).
Proof.
  intros Hinv H. right.
  destruct (length line <? 50) eqn:Hlen.
  - destruct (header_binds_Y line st st' Hlen H) as (D & M & Y & more & _ & HY).
    now exists Y.
  - destruct Hinv as [[HM _]|[y Hy]].
    + pose proof (process_line_no_header line st Hlen HM) as Hbad.
      rewrite H in Hbad. discriminate.
    + exists y. now rewrite (data_line_keeps_Y line st st' Hlen H).
Qed.

(** After a successful parse the year is bound as soon as the mapping has
    an entry. *)
Lemma parse_binds_Y (content : text) (st : pstate) :
  parse content = Some (Ok st) ->
  months st = [] \/ exists y, var_Y st = Some y.
Proof.
  intros Hparse.
  assert (Hinv : (var_M st = None /\ months st = []) \/ (exists y, var_Y st = Some y)).
  { rewrite parse_lines in Hparse. injection Hparse as Hrun.
    apply (for_each_invariant process_line
             (fun s => (var_M s = None /\ months s = []) \/ (exists y, var_Y s = Some y)))
      with (xs := lines_of content) (s := init_state).
    - intros s x s' Hs Hx. exact (process_line_binds_Y s s' x Hs Hx).
    - left. now split.
    - exact Hrun. }
  destruct Hinv as [[_ Hempty]|Hy]; [now left|now right].
Qed.

Lemma main_after_parse (fs : filesystem) (content : text) (st : pstate) :
  parse content = Some (Ok st) ->
  exists y,
    (months st <> [] -> var_Y st = Some y) /\
    main fs content = Some (write_files fs (flat_map (period_files y) (months st)) []).
Proof.
  intros Hparse.
  destruct (parse_binds_Y content st Hparse) as [Hempty|[y Hy]].
  - exists []. split; [congruence|].
    rewrite (main_ok fs content st Hparse), Hempty. reflexivity.
  - exists y. split; [now intros _|]. exact (main_writes fs content st y Hparse Hy).
Qed.

(** X8.  After a successful parse the rendering loop cannot fail on the
    year: whenever the mapping has an entry, Y is bound, and the only
    exception the loop can raise is that of a write the file system refuses.
    The script writes, for every entry of the mapping and in the mapping's
    order, first the raw file, which holds the parsed grid unchanged, and
    then the palettised file, two files for each entry, up to the first
    write that is refused; when every write is taken the run ends normally
    with all of them written. *)
Theorem rendering_follows_parse (fs : filesystem) (content : text) (st : pstate) :
  parse content = Some (Ok st) ->
  exists y,
    (months st <> [] -> var_Y st = Some y) /\
    length (flat_map (period_files y) (months st)) = 2 * length (months st) /\
    main fs content
    = Some (write_files fs (flat_map (period_files y) (months st)) []) /\
    (accepted fs (flat_map (period_files y) (months st)) ->
     main fs content = Some (flat_map (period_files y) (months st), Ok tt)) /\
    (forall written e,
        main fs content = Some (written, Raise e) ->
        accepted fs written /\
        exists name img rest,
          flat_map (period_files y) (months st) = written ++ (name, img) :: rest /\
          fs name = Some e).
Proof.
  intros Hparse.
  destruct (main_after_parse fs content st Hparse) as (y & HY & Hmain).
  exists y.
  split; [exact HY|]. split; [apply period_files_length|]. split; [exact Hmain|]. split.
  - intros Hacc. rewrite Hmain, (write_files_accepted fs _ Hacc []). reflexivity.
  - intros written e Hrun. rewrite Hmain in Hrun. injection Hrun as Hrun.
    destruct (write_files_outcome fs _ _ _ _ Hrun)
      as (done & rest & Hfiles & Hwritten & Hdone & name & img & rest' & Hrest & Hname).
    cbn [app] in Hwritten. subst written rest.
    split; [exact Hdone|]. now exists name, img, rest'.
Qed.

Lemma rendering_follows_parse_witness :
  (exists y,
      (months slash_state <> [] -> var_Y slash_state = Some y) /\
      length (flat_map (period_files y) (months slash_state))
      = 2 * length (months slash_state) /\
      main flat_directory slash_file
      = Some (write_files flat_directory
                          (flat_map (period_files y) (months slash_state)) []) /\
      (accepted flat_directory (flat_map (period_files y) (months slash_state)) ->
       main flat_directory slash_file
       = Some (flat_map (period_files y) (months slash_state), Ok tt)) /\
      (forall written e,
          main flat_directory slash_file = Some (written, Raise e) ->
          accepted flat_directory written /\
          exists name img rest,
            flat_map (period_files y) (months slash_state)
            = written ++ (name, img) :: rest /\
            flat_directory name = Some e)) /\
  exists y,
    (months (fold_left after_period three_periods init_state) <> [] ->
     var_Y (fold_left after_period three_periods init_state) = Some y) /\
    length (flat_map (period_files y)
                     (months (fold_left after_period three_periods init_state)))
    = 2 * length (months (fold_left after_period three_periods init_state)) /\
    main accept_all three_period_file
    = Some (write_files accept_all
              (flat_map (period_files y)
                        (months (fold_left after_period three_periods init_state))) []) /\
    (accepted accept_all
              (flat_map (period_files y)
                        (months (fold_left after_period three_periods init_state))) ->
     main accept_all three_period_file
     = Some (flat_map (period_files y)
                      (months (fold_left after_period three_periods init_state)), Ok tt)) /\
    (forall written e,
        main accept_all three_period_file = Some (written, Raise e) ->
        accepted accept_all written /\
        exists name img rest,
          flat_map (period_files y)
                   (months (fold_left after_period three_periods init_state))
          = written ++ (name, img) :: rest /\
          accept_all name = Some e).
Proof.
  split.
  - apply (rendering_follows_parse flat_directory slash_file). exact slash_parse.
  - apply (rendering_follows_parse accept_all three_period_file). exact three_period_parse.
Defined.

(** ** The month in a file name *)

Lemma split_ws_tokens (s : text) :
  forall cur tok,
    Forall (fun c => is_space c = false) cur ->
    In tok (split_ws cur s) ->
    tok <> [] /\ Forall (fun c => is_space c = false) tok.
Proof.
  assert (Hrev : forall cur : text,
             cur <> [] -> Forall (fun c => is_space c = false) cur ->
             rev cur <> [] /\ Forall (fun c => is_space c = false) (rev cur)).
  { intros cur Hne Hcur. split.
    - intros Hr. apply (f_equal (@length ascii)) in Hr. rewrite length_rev in Hr.
      destruct cur; [congruence|discriminate].
    - apply Forall_forall. intros c Hc. apply in_rev in Hc.
      rewrite Forall_forall in Hcur. now apply Hcur. }
  induction s as [|c s IH]; intros cur tok Hcur Hin; cbn [split_ws] in Hin.
  - destruct cur as [|a cur]; [destruct Hin|].
    destruct Hin as [<-|[]]. apply Hrev; [discriminate|exact Hcur].
  - destruct (is_space c) eqn:Hc.
    + destruct cur as [|a cur].
      * exact (IH [] tok Hcur Hin).
      * destruct Hin as [<-|Hin]; [apply Hrev; [discriminate|exact Hcur]|].
        exact (IH [] tok (Forall_nil _) Hin).
    + apply (IH (c :: cur) tok); [|exact Hin]. now constructor.
Qed.

Lemma header_token_in (h : text) (i : nat) :
  i < length (py_split h) -> In (header_token h i) (py_split h).
Proof. intros H. unfold header_token. now apply nth_In. Qed.

(** X9.  Every key of a parsed mapping is a token: it is not empty and holds
    no white space.  In a file name a key of one character gets a 0 before
    it and any longer key stands as it is, so the month of a file name has
    at least two characters and is never cut. *)
Theorem month_component_of_names (content : text) (st : pstate) (K : text) :
  parse content = Some (Ok st) ->
  In K (keys (months st)) ->
  K <> [] /\ Forall (fun c => is_space c = false) K /\
  2 <= length (pad_month K) /\
  (length K = 1 -> pad_month K = "0"%char :: K) /\
  (2 <= length K -> pad_month K = K).
Proof.
  intros Hparse HK.
  pose proof Hparse as Hrun. rewrite parse_lines in Hrun. injection Hrun as Hrun.
  apply (run_lines_keys _ _ _ Hrun K) in HK as [[]|(h & Hin & Hh & <-)].
  unfold header_ok in Hh. apply andb_prop in Hh as [_ Htok]. apply Nat.leb_le in Htok.
  assert (Hk : In (header_token h 1) (py_split h)) by (apply header_token_in; lia).
  destruct (split_ws_tokens h [] _ (Forall_nil _) Hk) as [Hne Hns].
  split; [exact Hne|]. split; [exact Hns|].
  unfold pad_month.
  destruct (header_token h 1) as [|a [|b k]]; [congruence| |]; cbn [length Nat.ltb Nat.leb txt list_ascii_of_string app].
  - repeat split; lia.
  - repeat split; lia.
Qed.

Lemma month_component_of_names_witness :
  txt "02" <> [] /\ Forall (fun c => is_space c = false) (txt "02") /\
  2 <= length (pad_month (txt "02")) /\
  (length (txt "02") = 1 -> pad_month (txt "02") = "0"%char :: txt "02") /\
  (2 <= length (txt "02") -> pad_month (txt "02") = txt "02").
Proof.
  apply (month_component_of_names
           three_period_file (fold_left after_period three_periods init_state) (txt "02")).
  - exact three_period_parse.
  - right. left. reflexivity.
Defined.

(** ** More on the colour mapper *)

(** X10.  In the palettised copy of a grid of int16 values the two reserved
    indices mean land and ice and nothing else: a cell is given index 0
    exactly when it holds -32768, and index 1 exactly when it holds -1000; no
    temperature, however low, is painted black or white. *)
Theorem reserved_indices_mean_land_and_ice (na : grid) (r c : nat) (raw : Z) :
  cell na r c = Some raw ->
  in_int16 raw = true ->
  (cell (colour_map na) r c = Some 0%Z <-> raw = (-32768)%Z) /\
  (cell (colour_map na) r c = Some 1%Z <-> raw = (-1000)%Z).
Proof.
  intros Hcell Hin.
  destruct (cell_steps_int16 raw Hin) as [Heq Hrange].
  rewrite colour_map_cell, Hcell. cbn [option_map]. rewrite Heq.
  unfold spec_palette_index.
  destruct (raw =? -32768)%Z eqn:Hland; [apply Z.eqb_eq in Hland|apply Z.eqb_neq in Hland].
  - subst raw. split; split; try reflexivity; intros H; discriminate.
  - destruct (raw =? -1000)%Z eqn:Hice; [apply Z.eqb_eq in Hice|apply Z.eqb_neq in Hice].
    + subst raw. split; split; try reflexivity; intros H; discriminate.
    + split; split; intros H; try contradiction; injection H as H; lia.
Qed.

Lemma reserved_indices_mean_land_and_ice_witness :
  (cell (colour_map [[-32767; -32768]; [-1000; -999]]%Z) 0 1 = Some 0%Z
   <-> (-32768)%Z = (-32768)%Z) /\
  (cell (colour_map [[-32767; -32768]; [-1000; -999]]%Z) 0 1 = Some 1%Z
   <-> (-32768)%Z = (-1000)%Z).
Proof.
  apply (reserved_indices_mean_land_and_ice [[-32767; -32768]; [-1000; -999]]%Z 0 1).
  - reflexivity.
  - reflexivity.
Defined.

Lemma palette_entries_checked :
  forallb (fun e => match palette_entry e with
                    | Some (r, g, b) =>
                        if e =? 0 then (r =? 0)%Z && (g =? 0)%Z && (b =? 0)%Z
                        else if e =? 1 then (r =? 255)%Z && (g =? 255)%Z && (b =? 255)%Z
                        else (r =? Z.of_nat e)%Z && (g =? 0)%Z && (b =? 255 - Z.of_nat e)%Z
                    | None => false
                    end) (seq 0 256) = true.
Proof. by_evaluation. Qed.

Lemma palette_entry_of (e : nat) :
  e < 256 ->
  palette_entry e
  = Some (if e =? 0 then (0, 0, 0)%Z
          else if e =? 1 then (255, 255, 255)%Z
          else (Z.of_nat e, 0%Z, (255 - Z.of_nat e)%Z)).
Proof.
  intros He. pose proof palette_entries_checked as H. rewrite forallb_forall in H.
  specialize (H e). cbv beta in H.
  assert (Hin : In e (seq 0 256)) by (apply in_seq; lia). apply H in Hin. clear H.
  destruct (palette_entry e) as [[[r g] b]|]; [|discriminate].
  destruct (e =? 0); [|destruct (e =? 1)];
    apply andb_prop in Hin as [Hrg Hb]; apply andb_prop in Hrg as [Hr Hg];
    apply Z.eqb_eq in Hr, Hg, Hb; now subst.
Qed.

(** X11.  Colour mapper and palette fit together: every cell of a grid of
    int16 values is given an index between 0 and 255, and the palette has a
    colour for it: black for land, white for ice, and for every other cell
    the colour (i, 0, 255 - i) of its index i, from blue to red. *)
Theorem every_pixel_has_a_colour (na : grid) (r c : nat) (raw : Z) :
  cell na r c = Some raw ->
  in_int16 raw = true ->
  exists i,
    cell (colour_map na) r c = Some i /\
    (0 <= i <= 255)%Z /\
    palette_entry (Z.to_nat i)
    = Some (if (raw =? -32768)%Z then (0, 0, 0)%Z
            else if (raw =? -1000)%Z then (255, 255, 255)%Z
            else (i, 0%Z, (255 - i)%Z)).
Proof.
  intros Hcell Hin.
  destruct (cell_steps_int16 raw Hin) as [Heq Hrange].
  exists (spec_palette_index raw).
  split; [rewrite colour_map_cell, Hcell; cbn [option_map]; now rewrite Heq|].
  unfold spec_palette_index.
  destruct (raw =? -32768)%Z; [split; [lia|reflexivity]|].
  destruct (raw =? -1000)%Z; [split; [lia|reflexivity]|].
  split; [lia|].
  rewrite palette_entry_of by lia.
  destruct (Z.to_nat (spec_gradient_index raw) =? 0) eqn:E0; [apply Nat.eqb_eq in E0; lia|].
  destruct (Z.to_nat (spec_gradient_index raw) =? 1) eqn:E1; [apply Nat.eqb_eq in E1; lia|].
  rewrite Z2Nat.id by lia. reflexivity.
Qed.

Lemma every_pixel_has_a_colour_witness :
  exists i,
    cell (colour_map [[1500; -32768]; [-1000; 271]]%Z) 0 0 = Some i /\
    (0 <= i <= 255)%Z /\
    palette_entry (Z.to_nat i)
    = Some (if (1500 =? -32768)%Z then (0, 0, 0)%Z
            else if (1500 =? -1000)%Z then (255, 255, 255)%Z
            else (i, 0%Z, (255 - i)%Z)).
Proof.
  apply (every_pixel_has_a_colour [[1500; -32768]; [-1000; 271]]%Z 0 0 1500%Z).
  - reflexivity.
  - reflexivity.
Defined.

Lemma gradient_step_checked :
  all_int16 (fun raw => (raw =? 32767)%Z
                        || (spec_gradient_index (raw + 1) <=? spec_gradient_index raw + 1)%Z)
  = true.
Proof. by_evaluation. Qed.

Lemma gradient_between (n : nat) :
  forall i,
    (-500 + Z.of_nat n <= 3000)%Z ->
    (spec_gradient_index (-500) <= i <= spec_gradient_index (-500 + Z.of_nat n))%Z ->
    exists raw, (-500 <= raw <= -500 + Z.of_nat n)%Z /\ spec_gradient_index raw = i.
Proof.
  induction n as [|n IH]; intros i Hn Hi.
  - exists (-500)%Z. rewrite Z.add_0_r in Hi. split; lia.
  - assert (Hint : in_int16 (-500 + Z.of_nat n) = true).
    { unfold in_int16. apply andb_true_intro. split; apply Z.leb_le; lia. }
    pose proof (all_int16_spec _ gradient_step_checked _ Hint) as Hs. cbv beta in Hs.
    apply orb_prop in Hs as [Hs|Hs]; [apply Z.eqb_eq in Hs; lia|].
    apply Z.leb_le in Hs.
    replace (-500 + Z.of_nat n + 1)%Z with (-500 + Z.of_nat (S n))%Z in Hs by lia.
    assert (Hmono : (spec_gradient_index (-500 + Z.of_nat n)
                     <= spec_gradient_index (-500 + Z.of_nat (S n)))%Z).
    { apply gradient_monotone; [exact Hint| |lia].
      unfold in_int16. apply andb_true_intro. split; apply Z.leb_le; lia. }
    destruct (Z_le_gt_dec i (spec_gradient_index (-500 + Z.of_nat n))) as [Hle|Hgt].
    + destruct (IH i) as (raw & Hraw & Hg); [lia|lia|]. exists raw. split; [lia|exact Hg].
    + exists (-500 + Z.of_nat (S n))%Z. split; lia.
Qed.

(** X13.  The gradient leaves no palette entry unused: every index from 2
    to 255 is the index of some raw value between -500 and 3000 (-5 and +30
    degrees), in whatever grid and cell that value stands. *)
Theorem gradient_covers_the_palette (i : Z) :
  (2 <= i <= 255)%Z ->
  exists raw,
    (-500 <= raw <= 3000)%Z /\
    forall (na : grid) (r c : nat),
      cell na r c = Some raw -> cell (colour_map na) r c = Some i.
Proof.
  intros Hi.
  assert (Hlo : spec_gradient_index (-500) = 2%Z) by by_evaluation.
  assert (Hhi : spec_gradient_index 3000 = 255%Z) by by_evaluation.
  destruct (gradient_between (Z.to_nat 3500) i) as (raw & Hraw & Hg).
  - rewrite Z2Nat.id; lia.
  - rewrite Z2Nat.id by lia. change (-500 + 3500)%Z with 3000%Z. lia.
  - rewrite Z2Nat.id in Hraw by lia.
    exists raw. split; [lia|]. intros na r c Hcell.
    assert (Hint : in_int16 raw = true).
    { unfold in_int16. apply andb_true_intro. split; apply Z.leb_le; lia. }
    destruct (cell_steps_int16 raw Hint) as [Heq _].
    rewrite colour_map_cell, Hcell. cbn [option_map].
    rewrite Heq, palette_index_gradient by lia. now rewrite Hg.
Qed.

Lemma gradient_covers_the_palette_witness :
  exists raw,
    (-500 <= raw <= 3000)%Z /\
    forall (na : grid) (r c : nat),
      cell na r c = Some raw -> cell (colour_map na) r c = Some 128%Z.
Proof. apply (gradient_covers_the_palette 128). lia. Defined.

(** ** Files that overwrite each other, and files that do not *)








(** ** What a field can hold *)

Lemma digit_val_range (c : ascii) (d : Z) :
  digit_val c = Some d -> (0 <= d <= 9)%Z.
Proof.
  unfold digit_val. destruct ((48 <=? code c) && (code c <=? 57))%N eqn:E; [|discriminate].
  intros [= <-]. apply andb_prop in E as [Hlo Hhi].
  apply N.leb_le in Hlo, Hhi. lia.
Qed.

Lemma digits_val_bound (s : text) :
  forall acc prev v,
    (0 <= acc)%Z -> digits_val acc prev s = Some v ->
    (acc <= v < (acc + 1) * 10 ^ Z.of_nat (length s))%Z.
Proof.
  induction s as [|c s IH]; intros acc prev v Hacc H; cbn [digits_val length] in *.
  - destruct prev; [|discriminate]. injection H as <-. cbn [Z.of_nat]. lia.
  - rewrite Nat2Z.inj_succ, Z.pow_succ_r by lia.
    assert (Hpow : (0 < 10 ^ Z.of_nat (length s))%Z) by (apply Z.pow_pos_nonneg; lia).
    destruct (code c =? 95)%N.
    + destruct prev; [|discriminate].
      specialize (IH acc false v Hacc H). nia.
    + destruct (digit_val c) as [d|] eqn:Hd; [|discriminate].
      apply digit_val_range in Hd.
      specialize (IH (10 * acc + d)%Z true v ltac:(lia) H). nia.
Qed.

Lemma lstrip_length (s : text) : length (lstrip s) <= length s.
Proof.
  induction s as [|c s IH]; cbn [lstrip length]; [lia|].
  destruct (is_int_space c); cbn [length]; lia.
Qed.

Lemma py_strip_length (s : text) : length (py_strip s) <= length s.
Proof.
  unfold py_strip. rewrite length_rev.
  pose proof (lstrip_length (rev (lstrip s))) as H1.
  pose proof (lstrip_length s) as H2. rewrite length_rev in H1. lia.
Qed.

Lemma py_int_bound (s : text) (n : nat) (v : Z) :
  length s <= S n -> py_int s = Some v ->
  (- 10 ^ Z.of_nat n < v < 10 ^ Z.of_nat (S n))%Z.
Proof.
  unfold py_int. intros Hlen H.
  pose proof (py_strip_length s) as Hs.
  assert (Hn : (0 < 10 ^ Z.of_nat n)%Z) by (apply Z.pow_pos_nonneg; lia).
  assert (HSn : (10 ^ Z.of_nat (S n) = 10 * 10 ^ Z.of_nat n)%Z)
    by (rewrite Nat2Z.inj_succ, Z.pow_succ_r; lia).
  assert (Hmono : forall k, k <= n -> (10 ^ Z.of_nat k <= 10 ^ Z.of_nat n)%Z)
    by (intros k Hk; apply Z.pow_le_mono_r; lia).
  destruct (py_strip s) as [|c ds] eqn:E; [discriminate|]. cbn [length] in Hs.
  destruct (code c =? 45)%N.
  - destruct (digits_val 0 false ds) as [w|] eqn:Hw; [|discriminate].
    injection H as <-. apply digits_val_bound in Hw; [|lia].
    specialize (Hmono (length ds) ltac:(lia)). lia.
  - destruct (code c =? 43)%N.
    + apply digits_val_bound in H; [|lia].
      specialize (Hmono (length ds) ltac:(lia)). lia.
    + apply digits_val_bound in H; [|lia]. cbn [length] in H.
      assert (Hle : (10 ^ Z.of_nat (S (length ds)) <= 10 ^ Z.of_nat (S n))%Z)
        by (apply Z.pow_le_mono_r; lia).
      lia.
Qed.

(** X15.  Whatever the line, the integer read from one of its six-character
    field slots lies between -99999 and 999999: a field can leave the int16
    range of the array, but by no more than that. *)
Theorem field_range (line : text) (c : nat) (v : Z) :
  field line c = Some v -> (-99999 <= v <= 999999)%Z.
Proof.
  unfold field. intros H.
  assert (Hlen : length (py_slice line (6 * c) (6 * c + 6)) <= 6).
  { unfold py_slice. rewrite length_firstn. lia. }
  apply (py_int_bound _ 5 v Hlen) in H.
  change (10 ^ Z.of_nat 5)%Z with 100000%Z in H.
  change (10 ^ Z.of_nat 6)%Z with 1000000%Z in H. lia.
Qed.

Lemma field_range_witness : (-99999 <= 40000 <= 999999)%Z.
Proof.
  apply (field_range (data_line "040000" "   271") 0 40000). by_evaluation.
Defined.

(** ** The row cursor *)

Lemma store_field_keeps_r (line : text) (st st' : pstate) (c : nat) :
  store_field line st c = Ok st' -> var_r st' = var_r st.
Proof.
  unfold store_field. intros H.
  destruct (py_int _); cbn [or_raise bind] in H; [|discriminate].
  destruct (var_M st); cbn [or_raise bind] in H; [|discriminate].
  destruct (dict_get _ _); cbn [or_raise bind] in H; [|discriminate].
  destruct (var_r st) as [r|] eqn:Er; cbn [or_raise bind] in H; [|discriminate].
  destruct (grid_set _ _ _ _); cbn [or_raise bind] in H; [|discriminate].
  injection H as <-. unfold set_months. cbn [var_r]. exact Er.
Qed.

Lemma store_fields_keep_r (line : text) (cs : list nat) :
  forall st st', for_each (store_field line) cs st = Ok st' -> var_r st' = var_r st.
Proof.
  induction cs as [|c cs IH]; intros st st' H; cbn [for_each] in H.
  - now injection H as <-.
  - destruct (store_field line st c) as [st1|] eqn:E; cbn [bind] in H; [|discriminate].
    rewrite (IH _ _ H). exact (store_field_keeps_r line st st1 c E).
Qed.

(** A store that succeeds was made into one of the 180 rows. *)
Lemma store_field_row (line : text) (st st' : pstate) (c : nat) :
  grids_shaped st -> store_field line st c = Ok st' ->
  exists r, var_r st = Some r /\ r < 180.
Proof.
  unfold store_field. intros Hshape H.
  destruct (py_int _); cbn [or_raise bind] in H; [|discriminate].
  destruct (var_M st) as [M|]; cbn [or_raise bind] in H; [|discriminate].
  destruct (dict_get _ _) as [na|] eqn:Hget; cbn [or_raise bind] in H; [|discriminate].
  destruct (var_r st) as [r|]; cbn [or_raise bind] in H; [|discriminate].
  destruct (grid_set na r c _) as [na'|] eqn:Hset; cbn [or_raise bind] in H; [|discriminate].
  exists r. split; [reflexivity|].
  apply dict_get_in in Hget. destruct (Hshape M na Hget) as [Hlen _].
  unfold grid_set in Hset.
  destruct (nth_error na r) as [row|] eqn:Hrow; [|discriminate].
  rewrite <- Hlen. apply nth_error_Some. congruence.
Qed.

Lemma seq_COLS : seq 0 COLS = 0 :: seq 1 359.
Proof. reflexivity. Qed.

Lemma bind_ok_inv {A B} (m : result A) (k : A -> result B) (b : B) :
  (a <- m ;; k a) = Ok b -> exists a, m = Ok a /\ k a = Ok b.
Proof. destruct m as [a|e]; cbn [bind]; [|discriminate]. intros H. now exists a. Qed.

Lemma for_each_cons {S X} (body : S -> X -> result S) (x : X) (xs : list X) (s : S) :
  for_each body (x :: xs) s = (s' <- body s x ;; for_each body xs s').
Proof. reflexivity. Qed.

Lemma data_line_advances (st st' : pstate) (line : text) :
  grids_shaped st -> (length line <? 50) = false -> process_line st line = Ok st' ->
  exists r, var_r st = Some r /\ r < 180 /\ var_r st' = Some (r + 1).
Proof.
  intros Hshape Hlong H. unfold process_line in H. rewrite Hlong in H.
  apply bind_ok_inv in H as (st1 & E & H).
  apply bind_ok_inv in H as (r1 & Er1 & H).
  rewrite seq_COLS, for_each_cons in E.
  apply bind_ok_inv in E as (st0 & E0 & E1).
  destruct (store_field_row line st st0 0 Hshape E0) as (r & Hr & Hlt).
  pose proof (store_fields_keep_r line _ st0 st1 E1) as H1.
  pose proof (store_field_keeps_r line st st0 0 E0) as H0.
  rewrite H1, H0, Hr in Er1. cbn [or_raise] in Er1. injection Er1 as <-.
  injection H as <-. exists r. now repeat split.
Qed.

Lemma data_lines_count (rows : list text) :
  Forall (fun l => (length l <? 50) = false) rows ->
  forall st st' r,
    grids_shaped st -> var_r st = Some r -> run_lines st rows = Ok st' ->
    var_r st' = Some (r + length rows) /\ (rows <> [] -> r + length rows <= 180).
Proof.
  induction 1 as [|l rows Hl Hrows IH]; intros st st' r Hshape Hr H;
    unfold run_lines in H; cbn [for_each] in H.
  - injection H as <-. cbn [length]. rewrite Nat.add_0_r.
    split; [exact Hr|]. intros Hne. exfalso. now apply Hne.
  - destruct (process_line st l) as [st1|] eqn:E; cbn [bind] in H; [|discriminate].
    destruct (data_line_advances st st1 l Hshape Hl E) as (r0 & Hr0 & Hlt & Hr1).
    rewrite Hr in Hr0. injection Hr0 as <-.
    destruct (IH st1 st' (r + 1) (process_line_shaped st st1 l Hshape E) Hr1 H)
      as [Hfinal Hbound].
    cbn [length]. split.
    + rewrite Hfinal. f_equal. lia.
    + intros _. destruct rows as [|l' rows']; [cbn [length]; lia|].
      pose proof (Hbound ltac:(discriminate)) as Hb. lia.
Qed.

Lemma run_lines_shaped (lines : list text) (st st' : pstate) :
  grids_shaped st -> run_lines st lines = Ok st' -> grids_shaped st'.
Proof.
  intros Hs H.
  apply (for_each_invariant process_line grids_shaped) with (xs := lines) (s := st);
    [|exact Hs|exact H].
  intros s x s' Hs' Hx. exact (process_line_shaped s s' x Hs' Hx).
Qed.

(** X16.  A run that parses its input has stored no period in more than 180
    rows: the data lines between one header line and the next line that is
    no data line are at most 180, and when they end the file the row cursor
    is their number. *)
Theorem parsed_periods_fit_the_grid
        (content : text) (st : pstate) (pre rows rest : list text) (h : text) :
  parse content = Some (Ok st) ->
  lines_of content = pre ++ h :: rows ++ rest ->
  (length h <? 50) = true ->
  Forall (fun l => (length l <? 50) = false) rows ->
  length rows <= 180 /\ (rest = [] -> var_r st = Some (length rows)).
Proof.
  intros Hparse Hlines Hh Hrows.
  rewrite parse_lines, Hlines, run_lines_app in Hparse. injection Hparse as Hrun.
  destruct (run_lines init_state pre) as [st1|] eqn:E1; cbn [bind] in Hrun; [|discriminate].
  change (h :: rows ++ rest) with ([h] ++ rows ++ rest) in Hrun.
  rewrite run_lines_app in Hrun.
  destruct (run_lines st1 [h]) as [st2|] eqn:E2; cbn [bind] in Hrun; [|discriminate].
  rewrite run_lines_app in Hrun.
  destruct (run_lines st2 rows) as [st3|] eqn:E3; cbn [bind] in Hrun; [|discriminate].
  assert (Hshape1 : grids_shaped st1).
  { apply (run_lines_shaped pre init_state st1); [intros K g []|exact E1]. }
  pose proof (run_lines_shaped [h] st1 st2 Hshape1 E2) as Hshape2.
  assert (Hr2 : var_r st2 = Some 0).
  { unfold run_lines in E2. cbn [for_each] in E2.
    destruct (process_line st1 h) as [s|] eqn:Eh; cbn [bind] in E2; [|discriminate].
    injection E2 as <-. unfold process_line in Eh. rewrite Hh in Eh.
    destruct (py_split h) as [|D [|M [|Y more]]]; try discriminate.
    now injection Eh as <-. }
  destruct (data_lines_count rows Hrows st2 st3 0 Hshape2 Hr2 E3) as [Hr3 Hbound].
  cbn [Nat.add] in Hr3, Hbound. split.
  - destruct rows as [|l rows']; [cbn [length]; lia|]. apply Hbound. discriminate.
  - intros ->. unfold run_lines in Hrun. cbn [for_each] in Hrun.
    injection Hrun as <-. exact Hr3.
Qed.

Lemma parsed_periods_fit_the_grid_witness :
  length [data_line "   -55" "   271"; data_line "    66" "   271"] <= 180 /\
  (@nil text = [] ->
   var_r (fold_left after_period three_periods init_state)
   = Some (length [data_line "   -55" "   271"; data_line "    66" "   271"])).
Proof.
  apply (parsed_periods_fit_the_grid
           three_period_file (fold_left after_period three_periods init_state)
           [header_line "01" "1870"; data_line "  1234" "   271"; header_line "02" "1870"]
           [data_line "   -55" "   271"; data_line "    66" "   271"] []
           (header_line "01" "1871")).
  - exact three_period_parse.
  - exact three_period_lines.
  - by_evaluation.
  - repeat constructor; by_evaluation.
Defined.

(** ** The reading loop ends *)

(** X17.  The reading loop ends on every input: with one turn for every
    character of the file and one more it has reached the end of the file or
    raised, a larger allowance of turns changes nothing, and its result is
    that of the loop body run over the lines of the file in order. *)
Theorem reading_loop_ends (content : text) (fuel : nat) :
  length content < fuel ->
  read_loop fuel content init_state = parse content /\
  parse content = Some (run_lines init_state (lines_of content)).
Proof.
  intros Hfuel. split.
  - rewrite parse_lines. now apply read_loop_lines.
  - apply parse_lines.
Qed.

Lemma reading_loop_ends_witness :
  read_loop 100 two_year_file init_state = parse two_year_file /\
  parse two_year_file = Some (run_lines init_state (lines_of two_year_file)).
Proof.
  apply (reading_loop_ends two_year_file 100). vm_compute. lia.
Defined.
